(** * JPEG image reader of cups-filters: [cupsfilters/image-jpeg.c]

    A shallow embedding of [_cupsImageReadJPEG], [trim_spaces] and
    [_cupsImageReadEXIF], and the properties of the colorspace plan, the
    derivation of the resolution and the per-scanline pipeline.

    libjpeg, libexif and stdio are external libraries: the decoder is a
    producer of header fields and scanlines, the EXIF parser a producer of
    optional tag strings.  Actions on them, on the image sink and the stores
    into the image's resolution fields are recorded, in program order, in a
    log. *)

From Stdlib Require Import ZArith List Bool Lia String Ascii.
Import ListNotations.
Open Scope Z_scope.

(** ** Data model *)

(** [cups_icspace_t]: the image colorspaces named in the source. *)
Inductive cups_icspace_t : Type :=
| CUPS_IMAGE_CMYK
| CUPS_IMAGE_CMY
| CUPS_IMAGE_BLACK
| CUPS_IMAGE_WHITE
| CUPS_IMAGE_RGB
| CUPS_IMAGE_RGB_CMYK.

(** [J_COLOR_SPACE] of libjpeg, in the order of the [cspaces] table. *)
Inductive J_COLOR_SPACE : Type :=
| JCS_UNKNOWN
| JCS_GRAYSCALE
| JCS_RGB
| JCS_YCbCr
| JCS_CMYK
| JCS_YCCK.

Definition icspace_eqb (a b : cups_icspace_t) : bool :=
  match a, b with
  | CUPS_IMAGE_CMYK, CUPS_IMAGE_CMYK
  | CUPS_IMAGE_CMY, CUPS_IMAGE_CMY
  | CUPS_IMAGE_BLACK, CUPS_IMAGE_BLACK
  | CUPS_IMAGE_WHITE, CUPS_IMAGE_WHITE
  | CUPS_IMAGE_RGB, CUPS_IMAGE_RGB
  | CUPS_IMAGE_RGB_CMYK, CUPS_IMAGE_RGB_CMYK => true
  | _, _ => false
  end.

Definition jcs_eqb (a b : J_COLOR_SPACE) : bool :=
  match a, b with
  | JCS_UNKNOWN, JCS_UNKNOWN
  | JCS_GRAYSCALE, JCS_GRAYSCALE
  | JCS_RGB, JCS_RGB
  | JCS_YCbCr, JCS_YCbCr
  | JCS_CMYK, JCS_CMYK
  | JCS_YCCK, JCS_YCCK => true
  | _, _ => false
  end.

(** A pixel buffer ([cups_ib_t *]): one [Z] in 0..255 per byte. *)
Definition row : Type := list Z.

(** The fields of [cups_image_t] this file touches.  The resolution fields
    hold the [int] last stored into them. *)
Record cups_image_t : Type := mkImage {
  colorspace : cups_icspace_t;
  xsize : Z;
  ysize : Z;
  xppi : Z;
  yppi : Z
}.

Definition set_colorspace (img : cups_image_t) (c : cups_icspace_t) :=
  mkImage c (xsize img) (ysize img) (xppi img) (yppi img).
Definition set_size (img : cups_image_t) (w h : Z) :=
  mkImage (colorspace img) w h (xppi img) (yppi img).
Definition set_xppi (img : cups_image_t) (v : Z) :=
  mkImage (colorspace img) (xsize img) (ysize img) v (yppi img).
Definition set_yppi (img : cups_image_t) (v : Z) :=
  mkImage (colorspace img) (xsize img) (ysize img) (xppi img) v.

(** A saved marker ([jpeg_saved_marker_ptr]). *)
Record jpeg_marker : Type := mkMarker {
  marker : Z;
  data_length : Z;
  data : string
}.

(** The fields of [jpeg_decompress_struct] after [jpeg_read_header] and
    [jpeg_calc_output_dimensions], and the scanlines the decoder will hand
    out, by scanline number. *)
Record jpeg_decompress_struct : Type := mkCinfo {
  marker_list : list jpeg_marker;
  num_components : Z;
  output_width : Z;
  output_height : Z;
  X_density : Z;
  Y_density : Z;
  density_unit : Z;
  scanlines : Z -> row
}.

(** What libexif finds in the file: the human-readable values of the
    X-resolution and Y-resolution entries of IFD 0, when present. *)
Record ExifData : Type := mkExif {
  entryX : option string;
  entryY : option string
}.

(** The input stream: for this file, the result of
    [exif_data_new_from_data] on its bytes. *)
Record FILE : Type := mkFile {
  exif_data_new_from_data : option ExifData
}.

(** The log of actions, oldest first. *)
Inductive event : Type :=
| EvSetXppi (v : Z)
| EvSetYppi (v : Z)
| EvReadEXIF
| EvStartDecompress
| EvPutRow (x y width : Z) (pixels : row)
| EvFinishDecompress
| EvDestroyDecompress
| EvFclose.

Definition is_put_row (e : event) : bool :=
  match e with EvPutRow _ _ _ _ => true | _ => false end.

Definition is_set_ppi (e : event) : bool :=
  match e with EvSetXppi _ | EvSetYppi _ => true | _ => false end.

(** The rows handed to the sink, in call order. *)
Definition put_rows (log : list event) : list (Z * Z * Z * row) :=
  flat_map (fun e => match e with
                     | EvPutRow x y w p => [(x, y, w, p)]
                     | _ => []
                     end) log.

(** ** [(int)((float)density * 2.54)]

    The density is converted to binary32, promoted to binary64, multiplied
    by the binary64 constant nearest to 2.54 and truncated toward zero. *)
Module Float.

(** Round the nonnegative integer [m] to [prec] significant bits, ties to
    even; the result is [fst * 2 ^ snd]. *)
Definition round_nearest_even (prec m : Z) : Z * Z :=
  let k := Z.log2 m + 1 in
  if k <=? prec then (m, 0)
  else
    let sh := k - prec in
    let q := Z.shiftr m sh in
    let r := Z.land m (Z.ones sh) in
    let half := Z.shiftl 1 (sh - 1) in
    if (half <? r) || ((r =? half) && Z.odd q) then (q + 1, sh) else (q, sh).

(** [(float)n] for a nonnegative integer, as an integer. *)
Definition to_float (n : Z) : Z :=
  let '(q, sh) := round_nearest_even 24 n in Z.shiftl q sh.

(** The binary64 literal [2.54] is [mant_2_54 * 2^-51]. *)
Definition mant_2_54 : Z := 0x1451eb851eb852.

(** [(int)(x * 2.54)] for a nonnegative integer-valued double [x]. *)
Definition mul_2_54_to_int (x : Z) : Z :=
  let '(q, sh) := round_nearest_even 53 (x * mant_2_54) in
  Z.shiftr (Z.shiftl q sh) 51.

End Float.

Definition cm_to_ppi (density : Z) : Z :=
  Float.mul_2_54_to_int (Float.to_float density).

(** ** [trim_spaces] and [sscanf(buf, "%d", &v)] *)

Definition is_space_char (c : ascii) : bool := Ascii.eqb c " "%char.

(** The loop of [trim_spaces]: [pos] is the index of [buf], [s] the index of
    the last non-space character seen (initially -1). *)
Fixpoint trim_scan (buf : string) (pos s : Z) : Z :=
  match buf with
  | EmptyString => s
  | String c rest =>
      trim_scan rest (pos + 1) (if is_space_char c then s else pos)
  end.

(** [*++s = 0]: the string is cut after index [s]. *)
Definition trim_spaces (buf : string) : string :=
  substring 0 (Z.to_nat (trim_scan buf 0 (-1) + 1)) buf.

(** [isspace] in the C locale. *)
Definition isspace (c : ascii) : bool :=
  let n := Z.of_nat (nat_of_ascii c) in
  (n =? 32) || ((9 <=? n) && (n <=? 13)).

Definition digit_of (c : ascii) : option Z :=
  let n := Z.of_nat (nat_of_ascii c) in
  if (48 <=? n) && (n <=? 57) then Some (n - 48) else None.

Fixpoint skip_space (s : string) : string :=
  match s with
  | String c rest => if isspace c then skip_space rest else s
  | EmptyString => s
  end.

(** The digits at the head of [s], accumulated onto [acc]. *)
Fixpoint read_digits (s : string) (acc : Z) : Z :=
  match s with
  | String c rest =>
      match digit_of c with
      | Some d => read_digits rest (10 * acc + d)
      | None => acc
      end
  | EmptyString => acc
  end.

Definition starts_with_digit (s : string) : bool :=
  match s with
  | String c _ => match digit_of c with Some _ => true | None => false end
  | EmptyString => false
  end.

(** [sscanf(s, "%d", &v)]: [Some n] when an integer was matched and stored,
    [None] when nothing was stored.  Values outside [int] are not modelled
    (the conversion is undefined for them). *)
Definition sscanf_d (s : string) : option Z :=
  let s1 := skip_space s in
  let '(neg, s2) :=
    match s1 with
    | String "-"%char rest => (true, rest)
    | String "+"%char rest => (false, rest)
    | _ => (false, s1)
    end in
  if starts_with_digit s2
  then Some (if neg then - read_digits s2 0 else read_digits s2 0)
  else None.

(** The range of [int], the type of the locals [sscanf] stores into. *)
Definition INT_MIN : Z := - 2 ^ 31.
Definition INT_MAX : Z := 2 ^ 31 - 1.

(** ** [_cupsImageReadEXIF] *)

(** One axis: [exif_entry_get_value], [trim_spaces], and, when the result is
    not empty, [sscanf] into the local [res], whose value before the call is
    [res0] (the local is not initialised); [res] is then stored. *)
Definition exif_axis (entry : option string) (res0 : Z) : option Z :=
  match entry with
  | None => None
  | Some value =>
      match trim_spaces value with
      | EmptyString => None
      | buf1 => Some (match sscanf_d buf1 with Some n => n | None => res0 end)
      end
  end.

(** Returns the status, the image and the stores made, in order.
    [xRes0] and [yRes0] are the contents of the uninitialised locals. *)
Definition _cupsImageReadEXIF (img : cups_image_t) (fp : option FILE)
    (xRes0 yRes0 : Z) : Z * cups_image_t * list event :=
  match fp with
  | None => (-1, img, [])
  | Some f =>
      match exif_data_new_from_data f with
      | None => (2, img, [])
      | Some ed =>
          let '(img1, log1) :=
            match exif_axis (entryX ed) xRes0 with
            | Some xRes => (set_xppi img xRes, [EvSetXppi xRes])
            | None => (img, [])
            end in
          let '(img2, log2) :=
            match exif_axis (entryY ed) yRes0 with
            | Some yRes => (set_yppi img1 yRes, [EvSetYppi yRes])
            | None => (img1, [])
            end in
          (1, img2, log1 ++ log2)
      end
  end.

(** ** Helpers of the image library used by the reader

    Declared in [image-private.h] and defined in other files of the
    library; the reader is parametric in them.  A conversion takes the input
    row, the output buffer as it stands and the pixel count, and returns the
    output buffer; the in-place helpers return the buffer they were given. *)
Class ImagePrivate : Type := {
  CUPS_IMAGE_MAX_WIDTH : Z;
  CUPS_IMAGE_MAX_HEIGHT : Z;
  cupsImageGetDepth : cups_image_t -> Z;
  cupsImageLut : row -> Z -> row -> row;
  cupsImageRGBAdjust : row -> Z -> Z -> Z -> row;
  cupsImageWhiteToBlack : row -> row -> Z -> row;
  cupsImageWhiteToRGB : row -> row -> Z -> row;
  cupsImageWhiteToCMY : row -> row -> Z -> row;
  cupsImageWhiteToCMYK : row -> row -> Z -> row;
  cupsImageRGBToRGB : row -> row -> Z -> row;
  cupsImageRGBToWhite : row -> row -> Z -> row;
  cupsImageRGBToBlack : row -> row -> Z -> row;
  cupsImageRGBToCMY : row -> row -> Z -> row;
  cupsImageRGBToCMYK : row -> row -> Z -> row;
  cupsImageCMYKToWhite : row -> row -> Z -> row;
  cupsImageCMYKToBlack : row -> row -> Z -> row;
  cupsImageCMYKToCMY : row -> row -> Z -> row;
  cupsImageCMYKToRGB : row -> row -> Z -> row
}.

(** ** The Adobe marker scan *)

Definition JPEG_APP0 : Z := 0xE0.

Definition is_adobe_marker (m : jpeg_marker) : bool :=
  (marker m =? JPEG_APP0 + 14) && (12 <=? data_length m)
  && String.prefix "Adobe" (data m).

(** The [for] loop over [cinfo.marker_list]. *)
Fixpoint scan_markers (l : list jpeg_marker) (psjpeg : Z) : Z :=
  match l with
  | [] => psjpeg
  | m :: next => scan_markers next (if is_adobe_marker m then 1 else psjpeg)
  end.

(** ** The colorspace plan *)

(** The output parameters the reader sets in [cinfo]. *)
Record out_params : Type := mkOut {
  out_color_space : J_COLOR_SPACE;
  out_color_components : Z;
  output_components : Z
}.

(** The [if (cinfo.num_components == 1) ... else if (... == 4) ... else]
    chain: the output parameters and the value stored in
    [img->colorspace]. *)
Definition plan_colorspace (num_components : Z)
    (primary secondary : cups_icspace_t) : out_params * cups_icspace_t :=
  if num_components =? 1 then
    (mkOut JCS_GRAYSCALE 1 1, secondary)
  else if num_components =? 4 then
    (mkOut JCS_CMYK 4 4,
     if icspace_eqb primary CUPS_IMAGE_RGB_CMYK then CUPS_IMAGE_CMYK
     else primary)
  else
    (mkOut JCS_RGB 3 3,
     if icspace_eqb primary CUPS_IMAGE_RGB_CMYK then CUPS_IMAGE_RGB
     else primary).

(** ** Resolution from the header density fields *)

Definition density_valid (cinfo : jpeg_decompress_struct) : bool :=
  (0 <? X_density cinfo) && (0 <? Y_density cinfo)
  && (0 <? density_unit cinfo).

(** The values first stored from the header, by density unit. *)
Definition density_ppi (cinfo : jpeg_decompress_struct) : Z * Z :=
  if density_unit cinfo =? 1
  then (X_density cinfo, Y_density cinfo)
  else (cm_to_ppi (X_density cinfo), cm_to_ppi (Y_density cinfo)).

Definition header_resolution (cinfo : jpeg_decompress_struct)
    (img : cups_image_t) : cups_image_t * list event :=
  if density_valid cinfo then
    let '(x, y) := density_ppi cinfo in
    let img1 := set_yppi (set_xppi img x) y in
    let log1 := [EvSetXppi x; EvSetYppi y] in
    if (xppi img1 =? 0) || (yppi img1 =? 0)
    then (set_xppi (set_yppi img1 200) 200,
          log1 ++ [EvSetYppi 200; EvSetXppi 200])
    else (img1, log1)
  else (img, []).

(** ** The scanline pipeline *)

(** [for (ptr = in, i = n; i > 0; i--, ptr++) *ptr = 255 - *ptr;] *)
Fixpoint invert_loop (i : nat) (ptr : row) : row :=
  match i, ptr with
  | S i', b :: rest => ((255 - b) mod 256) :: invert_loop i' rest
  | _, _ => ptr
  end.

Definition invert_applies (psjpeg components : Z) : bool :=
  negb (psjpeg =? 0) && (components =? 4).

Definition adjust_applies (saturation hue components : Z) : bool :=
  (negb (saturation =? 100) || negb (hue =? 0)) && (components =? 3).

Definition direct_path (cs : cups_icspace_t) (jcs : J_COLOR_SPACE) : bool :=
  (icspace_eqb cs CUPS_IMAGE_WHITE && jcs_eqb jcs JCS_GRAYSCALE)
  || (icspace_eqb cs CUPS_IMAGE_CMYK && jcs_eqb jcs JCS_CMYK).

Section Reader.
Context `{ImagePrivate}.

(** The three [switch] statements: the conversion called for a decoder
    colorspace and an image colorspace, [None] for [default: break]. *)
Definition dispatch (jcs : J_COLOR_SPACE) (cs : cups_icspace_t)
    : option (row -> row -> Z -> row) :=
  if jcs_eqb jcs JCS_GRAYSCALE then
    match cs with
    | CUPS_IMAGE_BLACK => Some cupsImageWhiteToBlack
    | CUPS_IMAGE_RGB => Some cupsImageWhiteToRGB
    | CUPS_IMAGE_CMY => Some cupsImageWhiteToCMY
    | CUPS_IMAGE_CMYK => Some cupsImageWhiteToCMYK
    | _ => None
    end
  else if jcs_eqb jcs JCS_RGB then
    match cs with
    | CUPS_IMAGE_RGB => Some cupsImageRGBToRGB
    | CUPS_IMAGE_WHITE => Some cupsImageRGBToWhite
    | CUPS_IMAGE_BLACK => Some cupsImageRGBToBlack
    | CUPS_IMAGE_CMY => Some cupsImageRGBToCMY
    | CUPS_IMAGE_CMYK => Some cupsImageRGBToCMYK
    | _ => None
    end
  else
    match cs with
    | CUPS_IMAGE_WHITE => Some cupsImageCMYKToWhite
    | CUPS_IMAGE_BLACK => Some cupsImageCMYKToBlack
    | CUPS_IMAGE_CMY => Some cupsImageCMYKToCMY
    | CUPS_IMAGE_RGB => Some cupsImageCMYKToRGB
    | _ => None
    end.

(** [if (lut) cupsImageLut(buf, img->xsize * cupsImageGetDepth(img), lut)] *)
Definition apply_lut (img : cups_image_t) (lut : option row) (buf : row)
    : row :=
  match lut with
  | Some l => cupsImageLut buf (xsize img * cupsImageGetDepth img) l
  | None => buf
  end.

(** The inversion and the adjustment of the row just read. *)
Definition prepare_row (img : cups_image_t) (op : out_params)
    (psjpeg saturation hue : Z) (in_ : row) : row :=
  let in1 :=
    if invert_applies psjpeg (output_components op)
    then invert_loop (Z.to_nat (xsize img * 4)) in_
    else in_ in
  if adjust_applies saturation hue (output_components op)
  then cupsImageRGBAdjust in1 (xsize img) saturation hue
  else in1.

(** The conversion and the write of one prepared row, as scanline [y]:
    the [out] buffer afterwards and the call made on the sink. *)
Definition write_row (img : cups_image_t) (op : out_params)
    (lut : option row) (y : Z) (in_ out : row) : row * event :=
  if direct_path (colorspace img) (out_color_space op) then
    (out, EvPutRow 0 y (xsize img) (apply_lut img lut in_))
  else
    let out1 :=
      match dispatch (out_color_space op) (colorspace img) with
      | Some convert => convert in_ out (xsize img)
      | None => out
      end in
    let out2 := apply_lut img lut out1 in
    (out2, EvPutRow 0 y (xsize img) out2).

(** The state of the [while] loop. *)
Record loop_state : Type := mkLoop {
  output_scanline : Z;
  out_buf : row;
  loop_log : list event
}.

(** One iteration: [jpeg_read_scanlines] hands out the next scanline and
    advances [output_scanline]; the row is written at
    [output_scanline - 1]. *)
Definition scanline_step (cinfo : jpeg_decompress_struct)
    (img : cups_image_t) (op : out_params)
    (psjpeg saturation hue : Z) (lut : option row) (st : loop_state)
    : loop_state :=
  let in0 := scanlines cinfo (output_scanline st) in
  let scanline := output_scanline st + 1 in
  let in1 := prepare_row img op psjpeg saturation hue in0 in
  let '(out1, ev) := write_row img op lut (scanline - 1) in1 (out_buf st) in
  mkLoop scanline out1 (loop_log st ++ [ev]).

(** [while (cinfo.output_scanline < cinfo.output_height)] *)
Fixpoint scanline_loop (fuel : nat) (cinfo : jpeg_decompress_struct)
    (img : cups_image_t) (op : out_params)
    (psjpeg saturation hue : Z) (lut : option row) (st : loop_state)
    : loop_state :=
  match fuel with
  | O => st
  | S fuel' =>
      if output_scanline st <? output_height cinfo
      then scanline_loop fuel' cinfo img op psjpeg saturation hue lut
             (scanline_step cinfo img op psjpeg saturation hue lut st)
      else st
  end.

(** Contents of storage the reader uses before writing it: the locals
    [xRes] and [yRes] of [_cupsImageReadEXIF] and the [out] buffer. *)
Record indeterminate : Type := mkIndet {
  xRes0 : Z;
  yRes0 : Z;
  out0 : row
}.

Definition bad_dimensions (cinfo : jpeg_decompress_struct) : bool :=
  (output_width cinfo <=? 0)
  || (CUPS_IMAGE_MAX_WIDTH <? output_width cinfo)
  || (output_height cinfo <=? 0)
  || (CUPS_IMAGE_MAX_HEIGHT <? output_height cinfo).

(** The image and the log at the call of [jpeg_start_decompress]: after
    the plan, the geometry, the header densities and the EXIF scan. *)
Definition commit_image (img : cups_image_t)
    (cinfo : jpeg_decompress_struct) (fp : FILE)
    (primary secondary : cups_icspace_t) (junk : indeterminate)
    : cups_image_t * list event :=
  let img1 :=
    set_colorspace img
      (snd (plan_colorspace (num_components cinfo) primary secondary)) in
  let img2 := set_size img1 (output_width cinfo) (output_height cinfo) in
  let '(img3, log3) := header_resolution cinfo img2 in
  let '(temp, img4, log4) :=
    _cupsImageReadEXIF img3 (Some fp) (xRes0 junk) (yRes0 junk) in
  (img4, log3 ++ [EvReadEXIF] ++ log4).

(** [_cupsImageReadJPEG]: the status, the image and the log.  [cinfo] is
    the decoder's view of [fp].  The allocation of the two row buffers and
    [cupsImageSetMaxTiles] leave no trace in the log; the [in] buffer is
    filled anew by every [jpeg_read_scanlines], the [out] buffer lives
    across the rows. *)
Definition _cupsImageReadJPEG (img : cups_image_t)
    (cinfo : jpeg_decompress_struct) (fp : FILE)
    (primary secondary : cups_icspace_t) (saturation hue : Z)
    (lut : option row) (junk : indeterminate)
    : Z * cups_image_t * list event :=
  let psjpeg := scan_markers (marker_list cinfo) 0 in
  let op := fst (plan_colorspace (num_components cinfo) primary secondary) in
  if bad_dimensions cinfo then
    (1,
     set_colorspace img
       (snd (plan_colorspace (num_components cinfo) primary secondary)),
     [EvDestroyDecompress; EvFclose])
  else
    let '(img4, log4) := commit_image img cinfo fp primary secondary junk in
    let st :=
      scanline_loop (Z.to_nat (output_height cinfo)) cinfo img4 op
        psjpeg saturation hue lut
        (mkLoop 0 (out0 junk) (log4 ++ [EvStartDecompress])) in
    (0, img4,
     loop_log st ++ [EvFinishDecompress; EvDestroyDecompress; EvFclose]).

End Reader.

(** ** The claim of the specification on centimetre densities

    The specification states the conversion as [round(density * 2.54)];
    this is that rounding, to the nearest integer. *)
Definition spec_round_cm (density : Z) : Z := (density * 254 + 50) / 100.

(** ** A concrete instance of the helpers and concrete inputs

    Used to evaluate the reader on examples: bounds of 2^27 - 1 and
    2^30 - 1, a depth of one byte per channel of the colorspace, a lookup
    table applied to the first [n] bytes, and an adjustment and conversions
    that leave the data as it is (no statement below depends on what they
    compute). *)
Definition sample_depth (img : cups_image_t) : Z :=
  match colorspace img with
  | CUPS_IMAGE_CMYK | CUPS_IMAGE_RGB_CMYK => 4
  | CUPS_IMAGE_CMY | CUPS_IMAGE_RGB => 3
  | CUPS_IMAGE_BLACK | CUPS_IMAGE_WHITE => 1
  end.

Fixpoint sample_lut (buf : row) (n : nat) (lut : row) : row :=
  match n, buf with
  | S n', b :: rest => nth (Z.to_nat b) lut 0 :: sample_lut rest n' lut
  | _, _ => buf
  end.

#[local] Instance sample_helpers : ImagePrivate := {|
  CUPS_IMAGE_MAX_WIDTH := 0x07ffffff;
  CUPS_IMAGE_MAX_HEIGHT := 0x3fffffff;
  cupsImageGetDepth := sample_depth;
  cupsImageLut := fun buf n lut => sample_lut buf (Z.to_nat n) lut;
  cupsImageRGBAdjust := fun buf _ _ _ => buf;
  cupsImageWhiteToBlack := fun _ out _ => out;
  cupsImageWhiteToRGB := fun _ out _ => out;
  cupsImageWhiteToCMY := fun _ out _ => out;
  cupsImageWhiteToCMYK := fun _ out _ => out;
  cupsImageRGBToRGB := fun _ out _ => out;
  cupsImageRGBToWhite := fun _ out _ => out;
  cupsImageRGBToBlack := fun _ out _ => out;
  cupsImageRGBToCMY := fun _ out _ => out;
  cupsImageRGBToCMYK := fun _ out _ => out;
  cupsImageCMYKToWhite := fun _ out _ => out;
  cupsImageCMYKToBlack := fun _ out _ => out;
  cupsImageCMYKToCMY := fun _ out _ => out;
  cupsImageCMYKToRGB := fun _ out _ => out
|}.

(** An image as a caller may hand it over, with resolution [ppi] on both
    axes. *)
Definition sample_image (ppi : Z) : cups_image_t :=
  mkImage CUPS_IMAGE_WHITE 0 0 ppi ppi.

(** A decoder over a [w] x [h] image of [nc] components with the given
    density fields and markers, every scanline being [line]. *)
Definition sample_cinfo (markers : list jpeg_marker) (nc w h xd yd unit : Z)
    (line : row) : jpeg_decompress_struct :=
  mkCinfo markers nc w h xd yd unit (fun _ => line).

Definition adobe_marker : jpeg_marker :=
  mkMarker (JPEG_APP0 + 14) 12 "Adobe_______".

Definition no_exif : FILE := mkFile None.

Definition exif_file (x y : option string) : FILE :=
  mkFile (Some (mkExif x y)).

Definition sample_junk : indeterminate := mkIndet (-7) (-9) [7; 7; 7; 7].

(** ** Scanline numbers *)

Fixpoint zseq (y : Z) (n : nat) : list Z :=
  match n with
  | O => []
  | S n' => y :: zseq (y + 1) n'
  end.

(** [k] spaces. *)
Fixpoint pad (k : nat) : string :=
  match k with
  | O => EmptyString
  | S k' => String " " (pad k')
  end.

(** The last character of [s] is a space. *)
Fixpoint ends_with_space (s : string) : bool :=
  match s with
  | EmptyString => false
  | String c EmptyString => is_space_char c
  | String _ rest => ends_with_space rest
  end.

(** The check of [cm_to_ppi] against truncated decimal arithmetic on [n]
    consecutive densities from [d]. *)
Fixpoint cm_check (n : nat) (d : Z) : bool :=
  match n with
  | O => true
  | S n' => (cm_to_ppi d =? d * 254 / 100) && cm_check n' (d + 1)
  end.

(** The geometry of a sink call: x offset, row index and width. *)
Definition geometry (c : Z * Z * Z * row) : Z * Z * Z :=
  let '(x, y, w, _) := c in (x, y, w).

(** [e] is a sink call for row [y] at x offset 0 and width [w]. *)
Definition row_event (w y : Z) (e : event) : Prop :=
  exists pixels, e = EvPutRow 0 y w pixels.

(** The parts of the reader's result. *)
Definition status_of (r : Z * cups_image_t * list event) : Z := fst (fst r).
Definition image_of (r : Z * cups_image_t * list event) : cups_image_t :=
  snd (fst r).
Definition log_of (r : Z * cups_image_t * list event) : list event := snd r.

(** The resolution of an image. *)
Definition ppi_of (img : cups_image_t) : Z * Z := (xppi img, yppi img).

(** What the EXIF scan of [fp] stores, per axis. *)
Definition exif_stored (fp : FILE) (junk : indeterminate) : option Z * option Z :=
  match exif_data_new_from_data fp with
  | None => (None, None)
  | Some ed =>
      (exif_axis (entryX ed) (xRes0 junk), exif_axis (entryY ed) (yRes0 junk))
  end.

(** * Properties *)

(** ** Arithmetic of the centimetre conversion *)

Lemma round_nearest_even_nonneg (prec m : Z) :
  0 <= m -> 0 <= fst (Float.round_nearest_even prec m).
Proof.
  intros Hm. unfold Float.round_nearest_even.
  destruct (Z.log2 m + 1 <=? prec); simpl; [exact Hm|].
  assert (Hq : 0 <= Z.shiftr m (Z.log2 m + 1 - prec))
    by (apply Z.shiftr_nonneg; exact Hm).
  match goal with |- context [if ?b then _ else _] => destruct b end;
    simpl; lia.
Qed.

Lemma to_float_nonneg (n : Z) : 0 <= n -> 0 <= Float.to_float n.
Proof.
  intros Hn. unfold Float.to_float.
  pose proof (round_nearest_even_nonneg 24 n Hn) as Hq.
  destruct (Float.round_nearest_even 24 n) as [q sh]; simpl in Hq.
  apply Z.shiftl_nonneg; exact Hq.
Qed.

Lemma cm_to_ppi_nonneg (d : Z) : 0 <= d -> 0 <= cm_to_ppi d.
Proof.
  intros Hd. unfold cm_to_ppi, Float.mul_2_54_to_int.
  pose proof (to_float_nonneg d Hd) as Hf.
  assert (Hm : 0 <= Float.to_float d * Float.mant_2_54)
    by (apply Z.mul_nonneg_nonneg; [exact Hf | unfold Float.mant_2_54; lia]).
  pose proof (round_nearest_even_nonneg 53 _ Hm) as Hq.
  destruct (Float.round_nearest_even 53 (Float.to_float d * Float.mant_2_54))
    as [q sh]; simpl in Hq.
  apply Z.shiftr_nonneg, Z.shiftl_nonneg; exact Hq.
Qed.

(** The constant is the binary64 number nearest to 2.54: it is within half
    a unit in the last place (2^-52) of 254/100. *)
Lemma mant_2_54_nearest :
  2 ^ 52 <= Float.mant_2_54 < 2 ^ 53 /\
  Z.abs (100 * Float.mant_2_54 - 254 * 2 ^ 51) <= 50.
Proof. unfold Float.mant_2_54. split; [split|]; vm_compute; congruence. Qed.

Lemma cm_check_sound (n : nat) :
  forall d k, cm_check n d = true -> d <= k < d + Z.of_nat n ->
  cm_to_ppi k = k * 254 / 100.
Proof.
  induction n as [|n IH]; intros d k Hc Hk.
  - simpl in Hk. lia.
  - cbn [cm_check] in Hc. apply andb_prop in Hc as [Hd Hrest].
    destruct (Z.eq_dec k d) as [->|Hne].
    + apply Z.eqb_eq; exact Hd.
    + apply (IH (d + 1)); [exact Hrest | lia].
Qed.

(** On the range of a 16-bit density field the floating-point computation
    is the truncated decimal product. *)
Lemma cm_to_ppi_exact (d : Z) :
  0 <= d < 65536 -> cm_to_ppi d = d * 254 / 100.
Proof.
  intros Hd. apply (cm_check_sound (Z.to_nat 65536) 0).
  - vm_compute. reflexivity.
  - rewrite Z2Nat.id; lia.
Qed.

(** ** [trim_spaces] *)

Lemma trim_scan_pad (k : nat) : forall pos s, trim_scan (pad k) pos s = s.
Proof.
  induction k as [|k IH]; intros pos s; simpl; [reflexivity|].
  apply IH.
Qed.

Lemma trim_scan_app (v w : string) :
  forall pos s,
  trim_scan (v ++ w) pos s
  = trim_scan w (pos + Z.of_nat (String.length v)) (trim_scan v pos s).
Proof.
  induction v as [|c v IH]; intros pos s.
  - simpl. f_equal. lia.
  - cbn [append trim_scan String.length]. rewrite IH. f_equal. lia.
Qed.

Lemma trim_scan_last (v : string) :
  forall pos s, v <> EmptyString -> ends_with_space v = false ->
  trim_scan v pos s = pos + Z.of_nat (String.length v) - 1.
Proof.
  induction v as [|c v IH]; intros pos s Hne He; [congruence|].
  destruct v as [|c' v'].
  - simpl in *. rewrite He. lia.
  - assert (He' : ends_with_space (String c' v') = false) by exact He.
    remember (String c' v') as r eqn:Hr.
    cbn [trim_scan String.length]. rewrite IH; [lia| |exact He'].
    rewrite Hr. discriminate.
Qed.

Lemma substring_append (v w : string) :
  substring 0 (String.length v) (v ++ w) = v.
Proof.
  induction v as [|c v IH]; simpl.
  - destruct w; reflexivity.
  - rewrite IH. reflexivity.
Qed.

(** Trailing spaces, and only those, are cut. *)
Lemma trim_spaces_pad (v : string) (k : nat) :
  ends_with_space v = false -> trim_spaces (v ++ pad k) = v.
Proof.
  intros He. unfold trim_spaces.
  rewrite trim_scan_app, trim_scan_pad.
  destruct v as [|c v].
  - simpl. destruct (pad k); reflexivity.
  - rewrite trim_scan_last; [|discriminate|exact He].
    replace (Z.to_nat (0 + Z.of_nat (String.length (String c v)) - 1 + 1))
      with (String.length (String c v)) by lia.
    apply substring_append.
Qed.

(** ** The scanline loop *)

Lemma zseq_succ (y : Z) (n : nat) : zseq y (S n) = y :: zseq (y + 1) n.
Proof. reflexivity. Qed.

Lemma zseq_seq (n : nat) :
  forall start, zseq (Z.of_nat start) n = map Z.of_nat (seq start n).
Proof.
  induction n as [|n IH]; intros start; [reflexivity|].
  cbn [zseq seq map]. f_equal.
  replace (Z.of_nat start + 1) with (Z.of_nat (S start)) by lia.
  apply IH.
Qed.

Lemma put_rows_app (a b : list event) :
  put_rows (a ++ b) = put_rows a ++ put_rows b.
Proof. unfold put_rows. apply flat_map_app. Qed.

Lemma put_rows_cons_other (e : event) (l : list event) :
  is_put_row e = false -> put_rows (e :: l) = put_rows l.
Proof. destruct e; simpl; intros He; try discriminate; reflexivity. Qed.

Lemma row_events_geometry (w : Z) (ys : list Z) (evs : list event) :
  Forall2 (row_event w) ys evs ->
  map geometry (put_rows evs) = map (fun y => (0, y, w)) ys.
Proof.
  induction 1 as [|y e ys evs [p ->] _ IH]; [reflexivity|].
  simpl. f_equal. exact IH.
Qed.

Lemma row_events_no_set_ppi (w : Z) (ys : list Z) (evs : list event) :
  Forall2 (row_event w) ys evs -> Forall (fun e => is_set_ppi e = false) evs.
Proof.
  induction 1 as [|y e ys evs [p ->] _ IH]; constructor;
    [reflexivity | exact IH].
Qed.

Section Loop.
Context `{ImagePrivate}.
Variables (cinfo : jpeg_decompress_struct) (img : cups_image_t)
          (op : out_params) (psjpeg saturation hue : Z)
          (lut : option row).

Lemma write_row_event (y : Z) (in_ out : row) :
  row_event (xsize img) y (snd (write_row img op lut y in_ out)).
Proof.
  unfold write_row, row_event.
  destruct (direct_path (colorspace img) (out_color_space op)); simpl;
    eexists; reflexivity.
Qed.

Lemma scanline_step_inv (st : loop_state) :
  let st' := scanline_step cinfo img op psjpeg saturation hue lut st in
  output_scanline st' = output_scanline st + 1 /\
  exists e, loop_log st' = loop_log st ++ [e] /\
            row_event (xsize img) (output_scanline st) e.
Proof.
  unfold scanline_step.
  pose proof (write_row_event (output_scanline st + 1 - 1)
                (prepare_row img op psjpeg saturation hue
                   (scanlines cinfo (output_scanline st)))
                (out_buf st)) as He.
  destruct (write_row img op lut (output_scanline st + 1 - 1) _ (out_buf st))
    as [out1 ev]. simpl in *.
  split; [reflexivity|]. exists ev. split; [reflexivity|].
  replace (output_scanline st + 1 - 1) with (output_scanline st) in He
    by lia.
  exact He.
Qed.

(** With at least as much fuel as rows remain, the loop runs until
    [output_scanline] reaches [output_height] and makes one sink call per
    remaining row, in order. *)
Lemma scanline_loop_inv (fuel : nat) :
  forall st,
  output_scanline st <= output_height cinfo ->
  output_height cinfo - output_scanline st <= Z.of_nat fuel ->
  let st' := scanline_loop fuel cinfo img op psjpeg saturation hue lut st in
  output_scanline st' = output_height cinfo /\
  exists evs,
    loop_log st' = loop_log st ++ evs /\
    Forall2 (row_event (xsize img))
      (zseq (output_scanline st)
         (Z.to_nat (output_height cinfo - output_scanline st)))
      evs.
Proof.
  induction fuel as [|fuel IH]; intros st Hle Hfuel.
  - simpl in *. split; [lia|]. exists []. rewrite app_nil_r.
    split; [reflexivity|].
    replace (output_height cinfo - output_scanline st) with 0 by lia.
    constructor.
  - cbn [scanline_loop].
    destruct (Z.ltb_spec (output_scanline st) (output_height cinfo))
      as [Hlt|Hge].
    + destruct (scanline_step_inv st) as [Hsl [e [Hlog He]]].
      set (st1 := scanline_step cinfo img op psjpeg saturation hue lut st)
        in *.
      destruct (IH st1) as [Hend [evs [Hlog' Hrows]]]; [lia | lia |].
      split; [exact Hend|].
      exists (e :: evs). split.
      * rewrite Hlog', Hlog, <- app_assoc. reflexivity.
      * replace (Z.to_nat (output_height cinfo - output_scanline st))
          with (S (Z.to_nat (output_height cinfo - output_scanline st1)))
          by lia.
        rewrite zseq_succ. constructor; [exact He|].
        rewrite <- Hsl. exact Hrows.
    + split; [lia|]. exists []. rewrite app_nil_r. split; [reflexivity|].
      replace (output_height cinfo - output_scanline st) with 0 by lia.
      constructor.
Qed.

End Loop.

(** ** The stores before the loop *)

Lemma header_resolution_log (cinfo : jpeg_decompress_struct)
    (img : cups_image_t) :
  Forall (fun e => is_set_ppi e = true)
    (snd (header_resolution cinfo img)).
Proof.
  unfold header_resolution.
  destruct (density_valid cinfo); [|constructor].
  destruct (density_ppi cinfo) as [x y].
  match goal with |- context [if ?b then _ else _] => destruct b end;
    simpl; repeat constructor.
Qed.

Lemma read_exif_log (img : cups_image_t) (fp : option FILE) (x0 y0 : Z) :
  Forall (fun e => is_set_ppi e = true)
    (snd (_cupsImageReadEXIF img fp x0 y0)).
Proof.
  unfold _cupsImageReadEXIF.
  destruct fp as [f|]; [|constructor].
  destruct (exif_data_new_from_data f) as [ed|]; [|constructor].
  destruct (exif_axis (entryX ed) x0), (exif_axis (entryY ed) y0);
    simpl; repeat constructor.
Qed.

Lemma read_exif_geometry (img : cups_image_t) (fp : option FILE)
    (x0 y0 : Z) :
  let img' := snd (fst (_cupsImageReadEXIF img fp x0 y0)) in
  colorspace img' = colorspace img /\ xsize img' = xsize img /\
  ysize img' = ysize img.
Proof.
  unfold _cupsImageReadEXIF.
  destruct fp as [f|]; [|auto].
  destruct (exif_data_new_from_data f) as [ed|]; [|auto].
  destruct (exif_axis (entryX ed) x0), (exif_axis (entryY ed) y0);
    simpl; auto.
Qed.

Lemma header_resolution_geometry (cinfo : jpeg_decompress_struct)
    (img : cups_image_t) :
  let img' := fst (header_resolution cinfo img) in
  colorspace img' = colorspace img /\ xsize img' = xsize img /\
  ysize img' = ysize img.
Proof.
  unfold header_resolution.
  destruct (density_valid cinfo); [|auto].
  destruct (density_ppi cinfo) as [x y].
  match goal with |- context [if ?b then _ else _] => destruct b end;
    simpl; auto.
Qed.

(** ** The reader as a whole *)

Lemma read_exif_ppi (img : cups_image_t) (fp : FILE) (junk : indeterminate) :
  let img' :=
    snd (fst (_cupsImageReadEXIF img (Some fp) (xRes0 junk) (yRes0 junk))) in
  xppi img' = match fst (exif_stored fp junk) with
              | Some v => v
              | None => xppi img
              end /\
  yppi img' = match snd (exif_stored fp junk) with
              | Some v => v
              | None => yppi img
              end.
Proof.
  unfold _cupsImageReadEXIF, exif_stored.
  destruct (exif_data_new_from_data fp) as [ed|]; [|auto].
  destruct (exif_axis (entryX ed) (xRes0 junk)),
           (exif_axis (entryY ed) (yRes0 junk)); simpl; auto.
Qed.

Lemma header_resolution_ppi (cinfo : jpeg_decompress_struct)
    (img img' : cups_image_t) :
  ppi_of img = ppi_of img' ->
  ppi_of (fst (header_resolution cinfo img))
  = ppi_of (fst (header_resolution cinfo img')).
Proof.
  unfold header_resolution, ppi_of. intros Heq.
  destruct (density_valid cinfo); [|exact Heq].
  destruct (density_ppi cinfo) as [x y]. simpl.
  destruct ((x =? 0) || (y =? 0)); reflexivity.
Qed.

Section Decode.
Context `{ImagePrivate}.
Variables (img : cups_image_t) (cinfo : jpeg_decompress_struct)
          (fp : FILE) (primary secondary : cups_icspace_t)
          (saturation hue : Z) (lut : option row) (junk : indeterminate).

Local Abbreviation committed :=
  (commit_image img cinfo fp primary secondary junk).
Local Abbreviation result :=
  (_cupsImageReadJPEG img cinfo fp primary secondary saturation hue lut
     junk).

Lemma commit_image_geometry :
  colorspace (fst committed)
  = snd (plan_colorspace (num_components cinfo) primary secondary) /\
  xsize (fst committed) = output_width cinfo /\
  ysize (fst committed) = output_height cinfo.
Proof.
  unfold commit_image.
  set (img2 := set_size _ _ _).
  pose proof (header_resolution_geometry cinfo img2) as Hh.
  destruct (header_resolution cinfo img2) as [img3 log3].
  pose proof (read_exif_geometry img3 (Some fp) (xRes0 junk) (yRes0 junk))
    as He.
  destruct (_cupsImageReadEXIF img3 (Some fp) (xRes0 junk) (yRes0 junk))
    as [[temp img4] log4].
  simpl in *. destruct Hh as (Hc1 & Hx1 & Hy1), He as (Hc2 & Hx2 & Hy2).
  rewrite Hc2, Hx2, Hy2, Hc1, Hx1, Hy1. subst img2. simpl. auto.
Qed.

Lemma commit_image_ppi :
  let hdr := fst (header_resolution cinfo img) in
  xppi (fst committed) = match fst (exif_stored fp junk) with
                         | Some v => v
                         | None => xppi hdr
                         end /\
  yppi (fst committed) = match snd (exif_stored fp junk) with
                         | Some v => v
                         | None => yppi hdr
                         end.
Proof.
  unfold commit_image.
  set (img2 := set_size _ _ _).
  assert (Hp : ppi_of (fst (header_resolution cinfo img2))
               = ppi_of (fst (header_resolution cinfo img)))
    by (apply header_resolution_ppi; reflexivity).
  destruct (header_resolution cinfo img2) as [img3 log3].
  pose proof (read_exif_ppi img3 fp junk) as He.
  destruct (_cupsImageReadEXIF img3 (Some fp) (xRes0 junk) (yRes0 junk))
    as [[temp img4] log4].
  simpl in *. unfold ppi_of in Hp. injection Hp as Hx Hy.
  rewrite <- Hx, <- Hy. exact He.
Qed.

(** The log up to [jpeg_start_decompress]: the stores from the header,
    the EXIF scan, the stores from the EXIF tags; no sink call. *)
Lemma commit_image_log :
  exists pre post,
    snd committed = pre ++ EvReadEXIF :: post /\
    Forall (fun e => is_set_ppi e = true) pre /\
    Forall (fun e => is_set_ppi e = true) post.
Proof.
  unfold commit_image.
  set (img2 := set_size _ _ _).
  pose proof (header_resolution_log cinfo img2) as Hh.
  destruct (header_resolution cinfo img2) as [img3 log3].
  pose proof (read_exif_log img3 (Some fp) (xRes0 junk) (yRes0 junk)) as He.
  destruct (_cupsImageReadEXIF img3 (Some fp) (xRes0 junk) (yRes0 junk))
    as [[temp img4] log4].
  simpl in *. exists log3, log4. auto.
Qed.

Lemma read_jpeg_bad :
  bad_dimensions cinfo = true ->
  result =
    (1,
     set_colorspace img
       (snd (plan_colorspace (num_components cinfo) primary secondary)),
     [EvDestroyDecompress; EvFclose]).
Proof.
  intros Hbad. unfold _cupsImageReadJPEG. rewrite Hbad.
  reflexivity.
Qed.

(** A decode that passes the geometry check: the loop runs to the last
    scanline, and the log is the committed prefix, the start of the
    decompression, one sink call per row and the release of the
    resources. *)
Lemma read_jpeg_good :
  bad_dimensions cinfo = false ->
  exists evs,
    result =
      (0, fst committed,
       snd committed ++ EvStartDecompress :: evs
       ++ [EvFinishDecompress; EvDestroyDecompress; EvFclose]) /\
    Forall2 (row_event (output_width cinfo))
      (zseq 0 (Z.to_nat (output_height cinfo))) evs.
Proof.
  intros Hgood. unfold _cupsImageReadJPEG. rewrite Hgood.
  pose proof commit_image_geometry as (_ & Hw & _).
  destruct committed as [img4 log4] eqn:Hc.
  simpl in Hw.
  unfold bad_dimensions in Hgood.
  apply orb_false_elim in Hgood as [Hgood Hh2].
  apply orb_false_elim in Hgood as [Hgood Hh1].
  apply orb_false_elim in Hgood as [Hw1 Hw2].
  apply Z.leb_gt in Hh1.
  match goal with
  | |- context [scanline_loop ?f ?c ?i ?o ?p ?s ?h ?l ?st] =>
      destruct (scanline_loop_inv c i o p s h l f st)
        as [_ [evs [Hlog Hrows]]]; [simpl; lia | simpl; lia |]
  end.
  exists evs. simpl in Hlog, Hrows. rewrite Z.sub_0_r, Hw in Hrows.
  split; [|exact Hrows].
  rewrite Hlog. simpl. rewrite <- !app_assoc. reflexivity.
Qed.

Lemma read_jpeg_status :
  status_of result = (if bad_dimensions cinfo then 1 else 0).
Proof.
  destruct (bad_dimensions cinfo) eqn:Hb.
  - rewrite (read_jpeg_bad Hb). reflexivity.
  - destruct (read_jpeg_good Hb) as [evs [-> _]]. reflexivity.
Qed.

End Decode.

(** * The claims *)

(** C3: the colorspace plan is a function of [(num_components, primary,
    secondary)] alone.  One component gives decoder colorspace Grayscale
    with 1 channel and target [secondary], whatever [primary] is; four
    components give CMYK with 4 channels and target CMYK when [primary] is
    the RGB-or-CMYK choice, otherwise [primary]; every other count gives RGB
    with 3 channels and target RGB when [primary] is the RGB-or-CMYK choice,
    otherwise [primary]. *)
Theorem plan_colorspace_cases (nc : Z) (primary secondary : cups_icspace_t) :
  let op := fst (plan_colorspace nc primary secondary) in
  let target := snd (plan_colorspace nc primary secondary) in
  (nc = 1 ->
   op = mkOut JCS_GRAYSCALE 1 1 /\ target = secondary) /\
  (nc = 4 ->
   op = mkOut JCS_CMYK 4 4 /\
   (primary = CUPS_IMAGE_RGB_CMYK -> target = CUPS_IMAGE_CMYK) /\
   (primary <> CUPS_IMAGE_RGB_CMYK -> target = primary)) /\
  (nc <> 1 -> nc <> 4 ->
   op = mkOut JCS_RGB 3 3 /\
   (primary = CUPS_IMAGE_RGB_CMYK -> target = CUPS_IMAGE_RGB) /\
   (primary <> CUPS_IMAGE_RGB_CMYK -> target = primary)).
Proof.
  unfold plan_colorspace. split; [|split].
  - intros ->. split; reflexivity.
  - intros ->. split; [reflexivity|]. split.
    + intros ->. reflexivity.
    + intros Hp. destruct primary; try reflexivity. congruence.
  - intros H1 H4.
    destruct (Z.eqb_spec nc 1); [contradiction|].
    destruct (Z.eqb_spec nc 4); [contradiction|].
    split; [reflexivity|]. split.
    + intros ->. reflexivity.
    + intros Hp. destruct primary; try reflexivity. congruence.
Qed.

Lemma plan_colorspace_cases_witness :
  (3 <> 1 /\ 3 <> 4 /\ CUPS_IMAGE_RGB_CMYK = CUPS_IMAGE_RGB_CMYK) /\
  plan_colorspace 3 CUPS_IMAGE_RGB_CMYK CUPS_IMAGE_BLACK
  = (mkOut JCS_RGB 3 3, CUPS_IMAGE_RGB) /\
  (1 = 1 /\
   plan_colorspace 1 CUPS_IMAGE_RGB_CMYK CUPS_IMAGE_BLACK
   = (mkOut JCS_GRAYSCALE 1 1, CUPS_IMAGE_BLACK)) /\
  (4 = 4 /\ CUPS_IMAGE_CMY <> CUPS_IMAGE_RGB_CMYK /\
   snd (plan_colorspace 4 CUPS_IMAGE_CMY CUPS_IMAGE_BLACK) = CUPS_IMAGE_CMY).
Proof.
  assert (H31 : 3 <> 1) by discriminate.
  assert (H34 : 3 <> 4) by discriminate.
  assert (Hne : CUPS_IMAGE_CMY <> CUPS_IMAGE_RGB_CMYK) by discriminate.
  split; [repeat split; assumption|].
  split.
  - destruct (plan_colorspace_cases 3 CUPS_IMAGE_RGB_CMYK CUPS_IMAGE_BLACK)
      as (_ & _ & H3).
    destruct (H3 H31 H34) as (Hop & Ht & _).
    apply injective_projections; [exact Hop | exact (Ht eq_refl)].
  - split.
    + split; [reflexivity|].
      destruct (plan_colorspace_cases 1 CUPS_IMAGE_RGB_CMYK CUPS_IMAGE_BLACK)
        as (H1 & _).
      destruct (H1 eq_refl) as (Hop & Ht).
      apply injective_projections; [exact Hop | exact Ht].
    + split; [reflexivity|]. split; [exact Hne|].
      destruct (plan_colorspace_cases 4 CUPS_IMAGE_CMY CUPS_IMAGE_BLACK)
        as (_ & H4 & _).
      destruct (H4 eq_refl) as (_ & _ & Ht). exact (Ht Hne).
Defined.

Lemma set_ppi_events (l : list event) :
  Forall (fun e => is_set_ppi e = true) l ->
  put_rows l = [] /\ ~ In EvFclose l /\ ~ In EvReadEXIF l /\
  ~ In EvStartDecompress l.
Proof.
  induction 1 as [|e l He _ (IH1 & IH2 & IH3 & IH4)].
  - simpl. tauto.
  - destruct e; simpl in He; try discriminate; simpl;
      (split; [exact IH1|]); repeat split; intros [Hc|Hc];
      try discriminate; auto.
Qed.

Lemma row_events_not_in (w : Z) (ys : list Z) (evs : list event) (e : event) :
  Forall2 (row_event w) ys evs -> is_put_row e = false -> ~ In e evs.
Proof.
  induction 1 as [|y e' ys evs [p ->] _ IH]; intros He; [simpl; tauto|].
  intros [Hc|Hc]; [subst e; discriminate | exact (IH He Hc)].
Qed.

(** C5: when the output width or height is not positive or exceeds the
    maximum, the reader returns 1, never calls the sink and destroys the
    decoder; and on every path, failed or successful, the last action is
    the one close of the input stream. *)
Theorem bad_geometry_and_fclose `{ImagePrivate}
    (img : cups_image_t) (cinfo : jpeg_decompress_struct) (fp : FILE)
    (primary secondary : cups_icspace_t) (saturation hue : Z)
    (lut : option row) (junk : indeterminate) :
  let r :=
    _cupsImageReadJPEG img cinfo fp primary secondary saturation hue lut junk
  in
  (output_width cinfo <= 0 \/ CUPS_IMAGE_MAX_WIDTH < output_width cinfo \/
   output_height cinfo <= 0 \/ CUPS_IMAGE_MAX_HEIGHT < output_height cinfo ->
   status_of r = 1 /\ put_rows (log_of r) = [] /\
   In EvDestroyDecompress (log_of r)) /\
  (exists before, log_of r = before ++ [EvFclose] /\ ~ In EvFclose before).
Proof.
  intros r. split.
  - intros Hbad.
    assert (Hb : bad_dimensions cinfo = true).
    { unfold bad_dimensions. rewrite !orb_true_iff, !Z.leb_le, !Z.ltb_lt.
      tauto. }
    unfold r. rewrite (read_jpeg_bad _ _ _ _ _ _ _ _ _ Hb).
    simpl. auto.
  - destruct (bad_dimensions cinfo) eqn:Hb.
    + unfold r. rewrite (read_jpeg_bad _ _ _ _ _ _ _ _ _ Hb).
      exists [EvDestroyDecompress]. split; [reflexivity|].
      intros [Hc|[]]. discriminate.
    + destruct (read_jpeg_good img cinfo fp primary secondary saturation hue
                  lut junk Hb) as [evs [Hr Hrows]].
      unfold r. rewrite Hr. unfold log_of. cbn [snd].
      destruct (commit_image_log img cinfo fp primary secondary junk)
        as (pre & post & Hlog & Hpre & Hpost).
      exists (snd (commit_image img cinfo fp primary secondary junk)
              ++ EvStartDecompress :: evs
              ++ [EvFinishDecompress; EvDestroyDecompress]).
      split.
      * rewrite <- !app_assoc. cbn [app]. rewrite <- !app_assoc.
        reflexivity.
      * rewrite Hlog.
        destruct (set_ppi_events pre Hpre) as (_ & Hp & _).
        destruct (set_ppi_events post Hpost) as (_ & Hq & _).
        pose proof (row_events_not_in _ _ _ EvFclose Hrows eq_refl) as Hr'.
        rewrite !in_app_iff. cbn [In]. rewrite !in_app_iff. cbn [In].
        intros Hc.
        repeat match goal with
               | Hd : _ \/ _ |- _ => destruct Hd
               end; try discriminate; try contradiction.
Qed.

Lemma bad_geometry_and_fclose_witness :
  let r :=
    _cupsImageReadJPEG (sample_image 200)
      (sample_cinfo [] 3 0 5 72 72 1 []) no_exif
      CUPS_IMAGE_RGB CUPS_IMAGE_WHITE 100 0 None sample_junk in
  output_width (sample_cinfo [] 3 0 5 72 72 1 []) <= 0 /\
  status_of r = 1 /\ put_rows (log_of r) = [] /\
  In EvDestroyDecompress (log_of r).
Proof.
  intros r.
  assert (Hw : output_width (sample_cinfo [] 3 0 5 72 72 1 []) <= 0)
    by (simpl; lia).
  split; [exact Hw|].
  exact (proj1 (bad_geometry_and_fclose (sample_image 200)
                  (sample_cinfo [] 3 0 5 72 72 1 []) no_exif
                  CUPS_IMAGE_RGB CUPS_IMAGE_WHITE 100 0 None sample_junk)
           (or_introl Hw)).
Defined.

Lemma status_zero_good `{ImagePrivate}
    (img : cups_image_t) (cinfo : jpeg_decompress_struct) (fp : FILE)
    (primary secondary : cups_icspace_t) (saturation hue : Z)
    (lut : option row) (junk : indeterminate) :
  status_of (_cupsImageReadJPEG img cinfo fp primary secondary saturation hue
               lut junk) = 0 ->
  bad_dimensions cinfo = false.
Proof.
  rewrite read_jpeg_status. destruct (bad_dimensions cinfo);
    [discriminate | reflexivity].
Qed.

(** C9: on a successful decode of an image of height H the sink is called
    once per source row, for the rows 0, 1, ..., H-1 in this order, each
    time at x offset 0 and with the full width of the image. *)
Theorem put_row_once_per_scanline `{ImagePrivate}
    (img : cups_image_t) (cinfo : jpeg_decompress_struct) (fp : FILE)
    (primary secondary : cups_icspace_t) (saturation hue : Z)
    (lut : option row) (junk : indeterminate) :
  let r :=
    _cupsImageReadJPEG img cinfo fp primary secondary saturation hue lut junk
  in
  status_of r = 0 ->
  xsize (image_of r) = output_width cinfo /\
  ysize (image_of r) = output_height cinfo /\
  map geometry (put_rows (log_of r))
  = map (fun i => (0, Z.of_nat i, xsize (image_of r)))
      (seq 0 (Z.to_nat (output_height cinfo))).
Proof.
  intros r Hst. apply status_zero_good in Hst.
  destruct (read_jpeg_good img cinfo fp primary secondary saturation hue
              lut junk Hst) as [evs [Hr Hrows]].
  destruct (commit_image_geometry img cinfo fp primary secondary junk)
    as (_ & Hw & Hh).
  destruct (commit_image_log img cinfo fp primary secondary junk)
    as (pre & post & Hlog & Hpre & Hpost).
  unfold r. rewrite Hr. unfold image_of, log_of. cbn [fst snd].
  split; [exact Hw|]. split; [exact Hh|].
  rewrite Hlog, Hw.
  destruct (set_ppi_events pre Hpre) as (Hp & _).
  destruct (set_ppi_events post Hpost) as (Hq & _).
  rewrite !put_rows_app, Hp.
  rewrite (put_rows_cons_other EvReadEXIF) by reflexivity. rewrite Hq.
  rewrite (put_rows_cons_other EvStartDecompress) by reflexivity.
  rewrite put_rows_app.
  change (put_rows [EvFinishDecompress; EvDestroyDecompress; EvFclose])
    with (@nil (Z * Z * Z * row)).
  cbn [app]. rewrite !app_nil_r.
  rewrite (row_events_geometry _ _ _ Hrows).
  pose proof (zseq_seq (Z.to_nat (output_height cinfo)) 0) as Hz.
  cbn [Z.of_nat] in Hz. rewrite Hz, map_map. reflexivity.
Qed.

Lemma put_row_once_per_scanline_witness :
  let r :=
    _cupsImageReadJPEG (sample_image 200)
      (sample_cinfo [] 3 2 3 72 72 1 [1; 2; 3; 4; 5; 6]) no_exif
      CUPS_IMAGE_RGB CUPS_IMAGE_WHITE 100 0 None sample_junk in
  status_of r = 0 /\
  map geometry (put_rows (log_of r)) = [(0, 0, 2); (0, 1, 2); (0, 2, 2)].
Proof.
  intros r. split; [reflexivity|].
  exact (proj2 (proj2 (put_row_once_per_scanline (sample_image 200)
                         (sample_cinfo [] 3 2 3 72 72 1 [1; 2; 3; 4; 5; 6])
                         no_exif CUPS_IMAGE_RGB CUPS_IMAGE_WHITE 100 0 None
                         sample_junk eq_refl))).
Defined.

(** ** The resolution *)

Lemma header_resolution_valid (cinfo : jpeg_decompress_struct)
    (img : cups_image_t) :
  density_valid cinfo = true ->
  ppi_of (fst (header_resolution cinfo img))
  = (if (fst (density_ppi cinfo) =? 0) || (snd (density_ppi cinfo) =? 0)
     then (200, 200) else density_ppi cinfo).
Proof.
  intros Hv. unfold header_resolution, ppi_of. rewrite Hv.
  destruct (density_ppi cinfo) as [x y]. simpl.
  destruct ((x =? 0) || (y =? 0)); reflexivity.
Qed.

Lemma header_resolution_invalid (cinfo : jpeg_decompress_struct)
    (img : cups_image_t) :
  density_valid cinfo = false -> header_resolution cinfo img = (img, []).
Proof. intros Hv. unfold header_resolution. rewrite Hv. reflexivity. Qed.

Lemma read_jpeg_ppi `{ImagePrivate}
    (img : cups_image_t) (cinfo : jpeg_decompress_struct) (fp : FILE)
    (primary secondary : cups_icspace_t) (saturation hue : Z)
    (lut : option row) (junk : indeterminate) :
  let r :=
    _cupsImageReadJPEG img cinfo fp primary secondary saturation hue lut junk
  in
  let hdr := fst (header_resolution cinfo img) in
  status_of r = 0 ->
  xppi (image_of r) = match fst (exif_stored fp junk) with
                      | Some v => v
                      | None => xppi hdr
                      end /\
  yppi (image_of r) = match snd (exif_stored fp junk) with
                      | Some v => v
                      | None => yppi hdr
                      end.
Proof.
  intros r hdr Hst. apply status_zero_good in Hst.
  destruct (read_jpeg_good img cinfo fp primary secondary saturation hue
              lut junk Hst) as [evs [Hr _]].
  unfold r. rewrite Hr. unfold image_of. cbn [fst snd].
  apply commit_image_ppi.
Qed.

(** C1, as the code has it: on every decode that reaches the rows, all the
    stores into the resolution come before the decompression starts, hence
    before any row is written, and the EXIF scan runs exactly once on every
    such decode, whatever the header density fields hold, after the stores from
    the header.  On each axis the final value is the one the EXIF scan
    stores, when it stores one, and otherwise the value after the header
    step, which for xDensity > 0, yDensity > 0 and densityUnit > 0 is a
    function of the header density fields alone. *)
Theorem resolution_before_rows_exif_last `{ImagePrivate}
    (img : cups_image_t) (cinfo : jpeg_decompress_struct) (fp : FILE)
    (primary secondary : cups_icspace_t) (saturation hue : Z)
    (lut : option row) (junk : indeterminate) :
  let r :=
    _cupsImageReadJPEG img cinfo fp primary secondary saturation hue lut junk
  in
  let hdr := fst (header_resolution cinfo img) in
  status_of r = 0 ->
  (exists pre mid post,
     log_of r = pre ++ EvReadEXIF :: mid ++ EvStartDecompress :: post /\
     Forall (fun e => is_set_ppi e = true) pre /\
     Forall (fun e => is_set_ppi e = true) mid /\
     Forall (fun e => is_set_ppi e = false) post /\
     ~ In EvReadEXIF post) /\
  xppi (image_of r) = match fst (exif_stored fp junk) with
                      | Some v => v
                      | None => xppi hdr
                      end /\
  yppi (image_of r) = match snd (exif_stored fp junk) with
                      | Some v => v
                      | None => yppi hdr
                      end /\
  (density_valid cinfo = true ->
   ppi_of hdr
   = (if (fst (density_ppi cinfo) =? 0) || (snd (density_ppi cinfo) =? 0)
      then (200, 200) else density_ppi cinfo)).
Proof.
  intros r hdr Hst.
  pose proof (read_jpeg_ppi img cinfo fp primary secondary saturation hue
                lut junk Hst) as [Hx Hy].
  split; [|split; [exact Hx|split; [exact Hy|]]].
  - apply status_zero_good in Hst.
    destruct (read_jpeg_good img cinfo fp primary secondary saturation hue
                lut junk Hst) as [evs [Hr Hrows]].
    destruct (commit_image_log img cinfo fp primary secondary junk)
      as (pre & post & Hlog & Hpre & Hpost).
    exists pre, post,
      (evs ++ [EvFinishDecompress; EvDestroyDecompress; EvFclose]).
    unfold r. rewrite Hr. unfold log_of. cbn [snd]. rewrite Hlog.
    split; [|split; [exact Hpre|split; [exact Hpost|split]]].
    + rewrite <- app_assoc. reflexivity.
    + apply Forall_app. split.
      * exact (row_events_no_set_ppi _ _ _ Hrows).
      * repeat constructor.
    + rewrite in_app_iff. cbn [In].
      pose proof (row_events_not_in _ _ _ EvReadEXIF Hrows eq_refl) as Hn.
      intros [Hc|[Hc|[Hc|[Hc|[]]]]]; try discriminate. exact (Hn Hc).
  - intros Hv. apply header_resolution_valid. exact Hv.
Qed.

Lemma resolution_before_rows_exif_last_witness :
  let r :=
    _cupsImageReadJPEG (sample_image 128)
      (sample_cinfo [] 3 2 2 72 72 1 [1; 2; 3; 4; 5; 6])
      (exif_file (Some "300 "%string) None)
      CUPS_IMAGE_RGB CUPS_IMAGE_WHITE 100 0 None sample_junk in
  status_of r = 0 /\ xppi (image_of r) = 300 /\ yppi (image_of r) = 72.
Proof.
  intros r.
  assert (Hs : status_of r = 0) by reflexivity.
  split; [exact Hs|].
  destruct (resolution_before_rows_exif_last (sample_image 128)
              (sample_cinfo [] 3 2 2 72 72 1 [1; 2; 3; 4; 5; 6])
              (exif_file (Some "300 "%string) None)
              CUPS_IMAGE_RGB CUPS_IMAGE_WHITE 100 0 None sample_junk Hs)
    as (_ & Hx & Hy & _).
  split; [exact Hx | exact Hy].
Defined.

(** C1 as stated fails: with header densities 72 x 72 dots per inch, all
    positive, and an EXIF X-resolution tag of 300, the final horizontal
    resolution is 300, not the 72 of the header. *)
Lemma header_resolution_overridden :
  let cinfo := sample_cinfo [] 3 2 2 72 72 1 [1; 2; 3; 4; 5; 6] in
  let r :=
    _cupsImageReadJPEG (sample_image 128) cinfo
      (exif_file (Some "300 "%string) None)
      CUPS_IMAGE_RGB CUPS_IMAGE_WHITE 100 0 None sample_junk in
  (0 < X_density cinfo /\ 0 < Y_density cinfo /\ 0 < density_unit cinfo) /\
  status_of r = 0 /\
  ppi_of (fst (header_resolution cinfo (sample_image 128))) = (72, 72) /\
  ppi_of (image_of r) = (300, 72) /\
  ppi_of (image_of r)
  <> ppi_of (fst (header_resolution cinfo (sample_image 128))).
Proof.
  intros cinfo r. split; [simpl; lia|].
  split; [reflexivity|]. split; [reflexivity|]. split; [reflexivity|].
  vm_compute. discriminate.
Qed.

Lemma density_ppi_nonneg (cinfo : jpeg_decompress_struct) :
  density_valid cinfo = true ->
  0 <= fst (density_ppi cinfo) /\ 0 <= snd (density_ppi cinfo).
Proof.
  unfold density_valid, density_ppi. intros Hv.
  apply andb_prop in Hv as [Hv _]. apply andb_prop in Hv as [Hx Hy].
  apply Z.ltb_lt in Hx, Hy.
  destruct (density_unit cinfo =? 1); simpl.
  - lia.
  - split; apply cm_to_ppi_nonneg; lia.
Qed.

(** C4, as the code has it: on a decode that reaches the rows and whose
    EXIF scan stores nothing (no EXIF data, or no tag, or blank tags), the
    resolution is at least 1 on both axes when the header density fields
    are all positive, and is otherwise the resolution the image had on
    entry, left as it was: (200, 200) when the caller had set it so. *)
Theorem resolution_without_exif `{ImagePrivate}
    (img : cups_image_t) (cinfo : jpeg_decompress_struct) (fp : FILE)
    (primary secondary : cups_icspace_t) (saturation hue : Z)
    (lut : option row) (junk : indeterminate) :
  let r :=
    _cupsImageReadJPEG img cinfo fp primary secondary saturation hue lut junk
  in
  status_of r = 0 ->
  exif_stored fp junk = (None, None) ->
  (density_valid cinfo = true ->
   1 <= xppi (image_of r) /\ 1 <= yppi (image_of r)) /\
  (density_valid cinfo = false -> ppi_of (image_of r) = ppi_of img) /\
  (density_valid cinfo = false -> ppi_of img = (200, 200) ->
   ppi_of (image_of r) = (200, 200)).
Proof.
  intros r Hst Hex.
  pose proof (read_jpeg_ppi img cinfo fp primary secondary saturation hue
                lut junk Hst) as [Hx Hy].
  fold r in Hx, Hy. rewrite Hex in Hx, Hy. cbn [fst snd] in Hx, Hy.
  assert (Hinv : density_valid cinfo = false ->
                 ppi_of (image_of r) = ppi_of img).
  { intros Hv. rewrite (header_resolution_invalid cinfo img Hv) in Hx, Hy.
    unfold ppi_of. rewrite Hx, Hy. reflexivity. }
  split; [|split; [exact Hinv|]].
  - intros Hv.
    pose proof (header_resolution_valid cinfo img Hv) as Hh.
    pose proof (density_ppi_nonneg cinfo Hv) as [Hnx Hny].
    unfold ppi_of in Hh. rewrite <- Hx, <- Hy in Hh.
    destruct (density_ppi cinfo) as [x y]. cbn [fst snd] in *.
    destruct (Z.eqb_spec x 0) as [Hx0|Hx0];
      destruct (Z.eqb_spec y 0) as [Hy0|Hy0];
      cbn [orb] in Hh; injection Hh as Hxx Hyy; lia.
  - intros Hv H200. rewrite (Hinv Hv). exact H200.
Qed.

Lemma resolution_without_exif_witness :
  let valid := sample_cinfo [] 3 2 2 1 1 2 [1; 2; 3; 4; 5; 6] in
  let invalid := sample_cinfo [] 3 2 2 0 0 0 [1; 2; 3; 4; 5; 6] in
  let run img cinfo :=
    _cupsImageReadJPEG img cinfo no_exif
      CUPS_IMAGE_RGB CUPS_IMAGE_WHITE 100 0 None sample_junk in
  (status_of (run (sample_image 200) valid) = 0 /\
   exif_stored no_exif sample_junk = (None, None) /\
   density_valid valid = true /\
   1 <= xppi (image_of (run (sample_image 200) valid))) /\
  (status_of (run (sample_image 200) invalid) = 0 /\
   density_valid invalid = false /\
   ppi_of (sample_image 200) = (200, 200) /\
   ppi_of (image_of (run (sample_image 200) invalid)) = (200, 200)).
Proof.
  intros valid invalid run.
  assert (Hs1 : status_of (run (sample_image 200) valid) = 0)
    by reflexivity.
  assert (Hs2 : status_of (run (sample_image 200) invalid) = 0)
    by reflexivity.
  assert (He : exif_stored no_exif sample_junk = (None, None))
    by reflexivity.
  assert (Hv1 : density_valid valid = true) by reflexivity.
  assert (Hv2 : density_valid invalid = false) by reflexivity.
  assert (Hp : ppi_of (sample_image 200) = (200, 200)) by reflexivity.
  split.
  - split; [exact Hs1|]. split; [exact He|]. split; [exact Hv1|].
    exact (proj1 (proj1 (resolution_without_exif (sample_image 200) valid
                           no_exif CUPS_IMAGE_RGB CUPS_IMAGE_WHITE 100 0
                           None sample_junk Hs1 He) Hv1)).
  - split; [exact Hs2|]. split; [exact Hv2|]. split; [exact Hp|].
    exact (proj2 (proj2 (resolution_without_exif (sample_image 200) invalid
                           no_exif CUPS_IMAGE_RGB CUPS_IMAGE_WHITE 100 0
                           None sample_junk Hs2 He)) Hv2 Hp).
Defined.

(** C4 as stated fails twice.  With no valid header density and no EXIF
    data, an image handed over with resolution 128 x 128 keeps it: the
    result is not (200, 200).  And an EXIF X-resolution tag reading zero is
    stored as it is: the horizontal resolution is 0, below 1. *)
Lemma default_resolution_not_200 :
  let cinfo := sample_cinfo [] 3 2 2 0 0 0 [1; 2; 3; 4; 5; 6] in
  let r :=
    _cupsImageReadJPEG (sample_image 128) cinfo no_exif
      CUPS_IMAGE_RGB CUPS_IMAGE_WHITE 100 0 None sample_junk in
  let r0 :=
    _cupsImageReadJPEG (sample_image 200) cinfo
      (exif_file (Some " 0"%string) None)
      CUPS_IMAGE_RGB CUPS_IMAGE_WHITE 100 0 None sample_junk in
  (status_of r = 0 /\ density_valid cinfo = false /\
   exif_data_new_from_data no_exif = None /\
   ppi_of (image_of r) = (128, 128) /\ ppi_of (image_of r) <> (200, 200)) /\
  (status_of r0 = 0 /\ xppi (image_of r0) = 0 /\
   ~ 1 <= xppi (image_of r0)).
Proof.
  intros cinfo r r0. split.
  - repeat (split; [reflexivity|]). vm_compute. discriminate.
  - split; [reflexivity|]. split; [reflexivity|].
    vm_compute. intros Hc. apply Hc. reflexivity.
Qed.

(** C7, as the code has it: for a header with 0 < xDensity, 0 < yDensity
    (16-bit fields) and densityUnit = 2, on a decode that reaches the rows
    and whose EXIF scan stores nothing, the resolution on each axis is
    density * 2.54 truncated to an integer, that is, the integer quotient of
    density * 254 by 100; densities (100, 100) give (254, 254). *)
Theorem cm_density_truncated `{ImagePrivate}
    (img : cups_image_t) (cinfo : jpeg_decompress_struct) (fp : FILE)
    (primary secondary : cups_icspace_t) (saturation hue : Z)
    (lut : option row) (junk : indeterminate) :
  let r :=
    _cupsImageReadJPEG img cinfo fp primary secondary saturation hue lut junk
  in
  status_of r = 0 ->
  exif_stored fp junk = (None, None) ->
  0 < X_density cinfo < 65536 ->
  0 < Y_density cinfo < 65536 ->
  density_unit cinfo = 2 ->
  ppi_of (image_of r)
  = (X_density cinfo * 254 / 100, Y_density cinfo * 254 / 100).
Proof.
  intros r Hst Hex HX HY Hu.
  pose proof (read_jpeg_ppi img cinfo fp primary secondary saturation hue
                lut junk Hst) as [Hx Hy].
  fold r in Hx, Hy. rewrite Hex in Hx, Hy. cbn [fst snd] in Hx, Hy.
  assert (Hv : density_valid cinfo = true).
  { unfold density_valid. rewrite Hu.
    rewrite !andb_true_iff, !Z.ltb_lt. lia. }
  pose proof (header_resolution_valid cinfo img Hv) as Hh.
  unfold ppi_of in Hh. rewrite <- Hx, <- Hy in Hh.
  unfold ppi_of. rewrite Hh.
  unfold density_ppi. rewrite Hu. cbn [Z.eqb Pos.eqb fst snd].
  rewrite !cm_to_ppi_exact by lia.
  assert (H2x : 2 <= X_density cinfo * 254 / 100)
    by (apply Z.div_le_lower_bound; lia).
  assert (H2y : 2 <= Y_density cinfo * 254 / 100)
    by (apply Z.div_le_lower_bound; lia).
  destruct (Z.eqb_spec (X_density cinfo * 254 / 100) 0); [lia|].
  destruct (Z.eqb_spec (Y_density cinfo * 254 / 100) 0); [lia|].
  reflexivity.
Qed.

Lemma cm_density_truncated_witness :
  let cinfo := sample_cinfo [] 3 2 2 100 100 2 [1; 2; 3; 4; 5; 6] in
  let r :=
    _cupsImageReadJPEG (sample_image 200) cinfo no_exif
      CUPS_IMAGE_RGB CUPS_IMAGE_WHITE 100 0 None sample_junk in
  (status_of r = 0 /\ exif_stored no_exif sample_junk = (None, None) /\
   0 < X_density cinfo < 65536 /\ 0 < Y_density cinfo < 65536 /\
   density_unit cinfo = 2) /\
  ppi_of (image_of r) = (254, 254).
Proof.
  intros cinfo r.
  assert (Hs : status_of r = 0) by reflexivity.
  assert (He : exif_stored no_exif sample_junk = (None, None))
    by reflexivity.
  assert (HX : 0 < X_density cinfo < 65536) by (simpl; lia).
  assert (HY : 0 < Y_density cinfo < 65536) by (simpl; lia).
  assert (Hu : density_unit cinfo = 2) by reflexivity.
  split; [repeat split; assumption || apply HX || apply HY|].
  exact (cm_density_truncated (sample_image 200) cinfo no_exif
           CUPS_IMAGE_RGB CUPS_IMAGE_WHITE 100 0 None sample_junk
           Hs He HX HY Hu).
Defined.

(** C7 as stated fails: densities (1, 1) with unit 2 resolve to (2, 2),
    while 2.54 rounds to 3. *)
Lemma cm_density_not_rounded :
  let cinfo := sample_cinfo [] 3 2 2 1 1 2 [1; 2; 3; 4; 5; 6] in
  let r :=
    _cupsImageReadJPEG (sample_image 200) cinfo no_exif
      CUPS_IMAGE_RGB CUPS_IMAGE_WHITE 100 0 None sample_junk in
  (0 < X_density cinfo /\ 0 < Y_density cinfo /\ density_unit cinfo = 2) /\
  status_of r = 0 /\
  ppi_of (image_of r) = (2, 2) /\
  (spec_round_cm (X_density cinfo), spec_round_cm (Y_density cinfo)) = (3, 3) /\
  ppi_of (image_of r)
  <> (spec_round_cm (X_density cinfo), spec_round_cm (Y_density cinfo)).
Proof.
  intros cinfo r. split; [simpl; repeat split; lia|].
  split; [reflexivity|]. split; [reflexivity|]. split; [reflexivity|].
  vm_compute. discriminate.
Qed.

(** ** The EXIF tags *)

Lemma exif_axis_padded (v : string) (k : nat) (n res0 : Z) :
  v <> EmptyString -> ends_with_space v = false -> sscanf_d v = Some n ->
  exif_axis (Some (v ++ pad k)%string) res0 = Some n.
Proof.
  intros Hne He Hn. unfold exif_axis. rewrite (trim_spaces_pad v k He).
  destruct v as [|c v]; [congruence|]. rewrite Hn. reflexivity.
Qed.

Lemma exif_axis_blank (k : nat) (res0 : Z) :
  exif_axis (Some (pad k)) res0 = None.
Proof.
  unfold exif_axis.
  replace (pad k) with (EmptyString ++ pad k)%string by reflexivity.
  rewrite (trim_spaces_pad EmptyString k eq_refl). reflexivity.
Qed.

(** C8: in the EXIF scan the two axes are handled independently.  A tag
    value is trimmed of its trailing padding spaces before it is parsed as
    an integer: an X-resolution of "72  " gives 72 on that axis, and a value
    of spaces only is empty once trimmed, so that nothing is parsed and
    nothing is stored.  A tag that is present and parses, to a value an
    [int] holds, overrides its own axis and leaves the other axis to the
    other tag; an absent tag leaves its axis as it was. *)
Theorem exif_axes_independent
    (img : cups_image_t) (ed : ExifData) (x0 y0 : Z) :
  let run e :=
    snd (fst (_cupsImageReadEXIF img (Some (mkFile (Some e))) x0 y0)) in
  (forall v k n,
     entryX ed = Some (v ++ pad k)%string ->
     v <> EmptyString -> ends_with_space v = false -> sscanf_d v = Some n ->
     INT_MIN <= n <= INT_MAX ->
     xppi (run ed) = n) /\
  (forall v k n,
     entryY ed = Some (v ++ pad k)%string ->
     v <> EmptyString -> ends_with_space v = false -> sscanf_d v = Some n ->
     INT_MIN <= n <= INT_MAX ->
     yppi (run ed) = n) /\
  (forall k, entryX ed = Some (pad k) -> xppi (run ed) = xppi img) /\
  (forall k, entryY ed = Some (pad k) -> yppi (run ed) = yppi img) /\
  (entryX ed = None -> xppi (run ed) = xppi img) /\
  (entryY ed = None -> yppi (run ed) = yppi img) /\
  (forall ey, xppi (run (mkExif (entryX ed) ey)) = xppi (run ed)) /\
  (forall ex, yppi (run (mkExif ex (entryY ed))) = yppi (run ed)).
Proof.
  intros run. unfold run, _cupsImageReadEXIF. cbn [exif_data_new_from_data].
  repeat split.
  - intros v k n Hx Hne He Hn _. rewrite Hx.
    rewrite (exif_axis_padded v k n x0 Hne He Hn).
    destruct (exif_axis (entryY ed) y0); reflexivity.
  - intros v k n Hy Hne He Hn _. rewrite Hy.
    rewrite (exif_axis_padded v k n y0 Hne He Hn).
    destruct (exif_axis (entryX ed) x0); reflexivity.
  - intros k Hx. rewrite Hx, exif_axis_blank.
    destruct (exif_axis (entryY ed) y0); reflexivity.
  - intros k Hy. rewrite Hy, exif_axis_blank.
    destruct (exif_axis (entryX ed) x0); reflexivity.
  - intros Hx. rewrite Hx. cbn [exif_axis].
    destruct (exif_axis (entryY ed) y0); reflexivity.
  - intros Hy. rewrite Hy. cbn [exif_axis].
    destruct (exif_axis (entryX ed) x0); reflexivity.
  - intros ey. cbn [entryX entryY].
    destruct (exif_axis (entryX ed) x0), (exif_axis ey y0),
             (exif_axis (entryY ed) y0); reflexivity.
  - intros ex. cbn [entryX entryY].
    destruct (exif_axis (entryX ed) x0), (exif_axis ex x0),
             (exif_axis (entryY ed) y0); reflexivity.
Qed.

Lemma exif_axes_independent_witness :
  let run e :=
    snd (fst (_cupsImageReadEXIF (sample_image 200)
                (Some (mkFile (Some e))) (-7) (-9))) in
  let ed := mkExif (Some "72  "%string) None in
  let blank := mkExif (Some "   "%string) (Some "96 "%string) in
  (entryX ed = Some ("72" ++ pad 2)%string /\
   "72"%string <> EmptyString /\ ends_with_space "72" = false /\
   sscanf_d "72" = Some 72 /\ INT_MIN <= 72 <= INT_MAX /\
   entryY ed = None) /\
  (xppi (run ed) = 72 /\ yppi (run ed) = 200) /\
  (entryX blank = Some (pad 3) /\ entryY blank = Some ("96" ++ pad 1)%string) /\
  (xppi (run blank) = 200 /\ yppi (run blank) = 96).
Proof.
  intros run ed blank.
  assert (Hx : entryX ed = Some ("72" ++ pad 2)%string) by reflexivity.
  assert (Hne : "72"%string <> EmptyString) by discriminate.
  assert (He : ends_with_space "72" = false) by reflexivity.
  assert (Hn : sscanf_d "72" = Some 72) by reflexivity.
  assert (Hr : INT_MIN <= 72 <= INT_MAX) by (unfold INT_MIN, INT_MAX; lia).
  assert (Hy : entryY ed = None) by reflexivity.
  assert (Hbx : entryX blank = Some (pad 3)) by reflexivity.
  assert (Hby : entryY blank = Some ("96" ++ pad 1)%string) by reflexivity.
  assert (Hr96 : INT_MIN <= 96 <= INT_MAX)
    by (unfold INT_MIN, INT_MAX; lia).
  split; [repeat split; assumption || apply Hr|].
  destruct (exif_axes_independent (sample_image 200) ed (-7) (-9))
    as (HX & _ & _ & _ & _ & HY & _).
  destruct (exif_axes_independent (sample_image 200) blank (-7) (-9))
    as (_ & HBY & HBX & _).
  split; [split; [exact (HX "72"%string 2%nat 72 Hx Hne He Hn Hr)
                 | exact (HY Hy)]|].
  split; [split; assumption|].
  split; [exact (HBX 3%nat Hbx)|].
  exact (HBY "96"%string 1%nat 96 Hby ltac:(discriminate) eq_refl eq_refl
           Hr96).
Defined.

(** ** The rows *)

Lemma invert_loop_all (line : row) :
  Forall (fun b => 0 <= b <= 255) line ->
  invert_loop (List.length line) line = map (fun b => 255 - b) line.
Proof.
  induction 1 as [|b rest Hb _ IH]; [reflexivity|].
  cbn [List.length invert_loop map]. rewrite IH, Z.mod_small by lia.
  reflexivity.
Qed.

Lemma plan_cmyk_components (nc : Z) (primary secondary : cups_icspace_t) :
  out_color_space (fst (plan_colorspace nc primary secondary)) = JCS_CMYK ->
  output_components (fst (plan_colorspace nc primary secondary)) = 4.
Proof.
  unfold plan_colorspace.
  destruct (nc =? 1); [discriminate|].
  destruct (nc =? 4); [reflexivity | discriminate].
Qed.

(** C2, as the code has it: for a row whose decoder and target colorspaces
    have no conversion and no direct path, the conversion is skipped but
    the row is written all the same: the output buffer as the previous row
    left it (as allocated, for the first row) goes through the optional
    lookup table and is handed to the sink for that scanline. *)
Theorem unhandled_pair_writes_stale_row `{ImagePrivate}
    (cinfo : jpeg_decompress_struct) (img : cups_image_t) (op : out_params)
    (psjpeg saturation hue : Z) (lut : option row) (st : loop_state) :
  direct_path (colorspace img) (out_color_space op) = false ->
  dispatch (out_color_space op) (colorspace img) = None ->
  scanline_step cinfo img op psjpeg saturation hue lut st
  = mkLoop (output_scanline st + 1)
      (apply_lut img lut (out_buf st))
      (loop_log st
       ++ [EvPutRow 0 (output_scanline st) (xsize img)
             (apply_lut img lut (out_buf st))]).
Proof.
  intros Hd Hn. unfold scanline_step, write_row. rewrite Hd, Hn.
  rewrite Z.add_simpl_r. reflexivity.
Qed.

Lemma unhandled_pair_writes_stale_row_witness :
  let img := mkImage CUPS_IMAGE_RGB_CMYK 1 2 200 200 in
  let op := mkOut JCS_GRAYSCALE 1 1 in
  (direct_path (colorspace img) (out_color_space op) = false /\
   dispatch (out_color_space op) (colorspace img) = None) /\
  scanline_step (sample_cinfo [] 1 1 2 0 0 0 [9]) img op 0 100 0 None
    (mkLoop 0 [7; 7; 7; 7] [])
  = mkLoop 1 [7; 7; 7; 7] [EvPutRow 0 0 1 [7; 7; 7; 7]].
Proof.
  intros img op.
  assert (Hd : direct_path (colorspace img) (out_color_space op) = false)
    by reflexivity.
  assert (Hn : dispatch (out_color_space op) (colorspace img) = None)
    by reflexivity.
  split; [split; assumption|].
  exact (unhandled_pair_writes_stale_row (sample_cinfo [] 1 1 2 0 0 0 [9])
           img op 0 100 0 None (mkLoop 0 [7; 7; 7; 7] []) Hd Hn).
Defined.

(** C2 as stated fails: a one-component image decoded with the RGB-or-CMYK
    choice as secondary colorspace has decoder colorspace Grayscale and
    that target, a pair with neither a conversion nor a direct path, and
    both of its rows are written to the sink. *)
Lemma unhandled_pair_row_written :
  let cinfo := sample_cinfo [] 1 1 2 0 0 0 [9] in
  let r :=
    _cupsImageReadJPEG (sample_image 200) cinfo no_exif
      CUPS_IMAGE_RGB CUPS_IMAGE_RGB_CMYK 100 0 None sample_junk in
  let op := fst (plan_colorspace 1 CUPS_IMAGE_RGB CUPS_IMAGE_RGB_CMYK) in
  out_color_space op = JCS_GRAYSCALE /\
  colorspace (image_of r) = CUPS_IMAGE_RGB_CMYK /\
  direct_path (colorspace (image_of r)) (out_color_space op) = false /\
  dispatch (out_color_space op) (colorspace (image_of r)) = None /\
  put_rows (log_of r) = [(0, 0, 1, [7; 7; 7; 7]); (0, 1, 1, [7; 7; 7; 7])] /\
  put_rows (log_of r) <> [].
Proof.
  intros cinfo r op. repeat (split; [reflexivity|]).
  vm_compute. discriminate.
Qed.

(** C6: for a row with decoder colorspace CMYK, target colorspace CMYK and
    the Adobe flag set, every byte b of the row becomes 255 - b, and the
    row so inverted is what the sink receives on the direct path: no
    conversion, only the optional lookup table.  The [out] buffer is left
    alone. *)
Theorem adobe_cmyk_row_inverted `{ImagePrivate}
    (cinfo : jpeg_decompress_struct) (img : cups_image_t)
    (nc : Z) (primary secondary : cups_icspace_t)
    (psjpeg saturation hue : Z) (lut : option row) (st : loop_state) :
  let op := fst (plan_colorspace nc primary secondary) in
  let line := scanlines cinfo (output_scanline st) in
  out_color_space op = JCS_CMYK ->
  colorspace img = CUPS_IMAGE_CMYK ->
  psjpeg <> 0 ->
  Z.of_nat (List.length line) = xsize img * 4 ->
  Forall (fun b => 0 <= b <= 255) line ->
  scanline_step cinfo img op psjpeg saturation hue lut st
  = mkLoop (output_scanline st + 1) (out_buf st)
      (loop_log st
       ++ [EvPutRow 0 (output_scanline st) (xsize img)
             (apply_lut img lut (map (fun b => 255 - b) line))]).
Proof.
  intros op line Hcs Himg Hps Hlen Hbytes.
  pose proof (plan_cmyk_components nc primary secondary Hcs) as Hcomp.
  fold op in Hcomp.
  unfold scanline_step, write_row, prepare_row, invert_applies,
    adjust_applies.
  rewrite Hcs, Himg, Hcomp. fold line.
  destruct (Z.eqb_spec psjpeg 0) as [|_]; [contradiction|].
  cbn [negb andb Z.eqb Pos.eqb direct_path icspace_eqb jcs_eqb orb].
  rewrite andb_false_r.
  replace (Z.to_nat (xsize img * 4)) with (List.length line) by lia.
  rewrite (invert_loop_all line Hbytes), Z.add_simpl_r.
  reflexivity.
Qed.

Lemma adobe_cmyk_row_inverted_witness :
  let cinfo := sample_cinfo [adobe_marker] 4 1 1 0 0 0 [10; 20; 30; 40] in
  let img := mkImage CUPS_IMAGE_CMYK 1 1 200 200 in
  let op := fst (plan_colorspace 4 CUPS_IMAGE_RGB_CMYK CUPS_IMAGE_WHITE) in
  let psjpeg := scan_markers (marker_list cinfo) 0 in
  let st := mkLoop 0 [7; 7; 7; 7] [] in
  (out_color_space op = JCS_CMYK /\ colorspace img = CUPS_IMAGE_CMYK /\
   psjpeg <> 0 /\
   Z.of_nat (List.length (scanlines cinfo (output_scanline st))) = xsize img * 4 /\
   Forall (fun b => 0 <= b <= 255) (scanlines cinfo (output_scanline st))) /\
  scanline_step cinfo img op psjpeg 100 0 None st
  = mkLoop 1 [7; 7; 7; 7] [EvPutRow 0 0 1 [245; 235; 225; 215]].
Proof.
  intros cinfo img op psjpeg st.
  assert (Hcs : out_color_space op = JCS_CMYK) by reflexivity.
  assert (Hi : colorspace img = CUPS_IMAGE_CMYK) by reflexivity.
  assert (Hp : psjpeg <> 0) by (vm_compute; discriminate).
  assert (Hl : Z.of_nat (List.length (scanlines cinfo (output_scanline st)))
               = xsize img * 4) by reflexivity.
  assert (Hb : Forall (fun b => 0 <= b <= 255)
                 (scanlines cinfo (output_scanline st)))
    by (simpl; repeat constructor; lia).
  split; [repeat split; assumption|].
  exact (adobe_cmyk_row_inverted cinfo img 4 CUPS_IMAGE_RGB_CMYK
           CUPS_IMAGE_WHITE psjpeg 100 0 None st Hcs Hi Hp Hl Hb).
Defined.

(** C10: the byte inversion and the saturation/hue adjustment are never
    both applied to a row.  The inversion is applied only with 4 output
    components, the adjustment only with 3, and the component count is the
    same for every row of an image; a prepared row is the row inverted, or
    the row adjusted, or the row as read. *)
Theorem invert_adjust_exclusive `{ImagePrivate}
    (img : cups_image_t) (op : out_params) (psjpeg saturation hue : Z)
    (in_ : row) :
  let inverts := invert_applies psjpeg (output_components op) in
  let adjusts := adjust_applies saturation hue (output_components op) in
  let prepared := prepare_row img op psjpeg saturation hue in_ in
  inverts && adjusts = false /\
  (inverts = true ->
   output_components op = 4 /\
   prepared = invert_loop (Z.to_nat (xsize img * 4)) in_) /\
  (adjusts = true ->
   output_components op = 3 /\
   prepared = cupsImageRGBAdjust in_ (xsize img) saturation hue) /\
  (inverts = false -> adjusts = false -> prepared = in_).
Proof.
  intros inverts adjusts prepared.
  unfold prepared, prepare_row. fold inverts adjusts.
  unfold inverts, adjusts, invert_applies, adjust_applies.
  destruct (Z.eqb_spec (output_components op) 4) as [H4|H4];
    destruct (Z.eqb_spec (output_components op) 3) as [H3|H3];
    try lia; rewrite ?andb_true_r, ?andb_false_r.
  - split; [reflexivity|]. split; [|split].
    + intros ->. auto.
    + discriminate.
    + intros ->. reflexivity.
  - split; [reflexivity|]. split; [|split].
    + discriminate.
    + intros ->. auto.
    + intros _ ->. reflexivity.
  - split; [reflexivity|]. split; [|split].
    + discriminate.
    + discriminate.
    + reflexivity.
Qed.

Lemma invert_adjust_exclusive_witness :
  let img := mkImage CUPS_IMAGE_CMYK 1 1 200 200 in
  (invert_applies 1 (output_components (mkOut JCS_CMYK 4 4)) = true /\
   prepare_row img (mkOut JCS_CMYK 4 4) 1 50 10 [10; 20; 30; 40]
   = [245; 235; 225; 215]) /\
  (adjust_applies 50 10 (output_components (mkOut JCS_RGB 3 3)) = true /\
   prepare_row img (mkOut JCS_RGB 3 3) 1 50 10 [10; 20; 30]
   = cupsImageRGBAdjust [10; 20; 30] 1 50 10) /\
  (invert_applies 0 (output_components (mkOut JCS_GRAYSCALE 1 1)) = false /\
   adjust_applies 50 10 (output_components (mkOut JCS_GRAYSCALE 1 1)) = false /\
   prepare_row img (mkOut JCS_GRAYSCALE 1 1) 0 50 10 [10] = [10]).
Proof.
  intros img.
  assert (Hi : invert_applies 1 (output_components (mkOut JCS_CMYK 4 4))
               = true) by reflexivity.
  assert (Ha : adjust_applies 50 10 (output_components (mkOut JCS_RGB 3 3))
               = true) by reflexivity.
  assert (Hi0 : invert_applies 0
                  (output_components (mkOut JCS_GRAYSCALE 1 1)) = false)
    by reflexivity.
  assert (Ha0 : adjust_applies 50 10
                  (output_components (mkOut JCS_GRAYSCALE 1 1)) = false)
    by reflexivity.
  split; [split; [exact Hi|]|split; [split; [exact Ha|]|]].
  - exact (proj2 (proj1 (proj2 (invert_adjust_exclusive img
                                  (mkOut JCS_CMYK 4 4) 1 50 10
                                  [10; 20; 30; 40])) Hi)).
  - exact (proj2 (proj1 (proj2 (proj2 (invert_adjust_exclusive img
                                         (mkOut JCS_RGB 3 3) 1 50 10
                                         [10; 20; 30]))) Ha)).
  - split; [exact Hi0|]. split; [exact Ha0|].
    exact (proj2 (proj2 (proj2 (invert_adjust_exclusive img
                                  (mkOut JCS_GRAYSCALE 1 1) 0 50 10 [10])))
             Hi0 Ha0).
Defined.

(** ** Evaluations *)

Example trim_spaces_examples :
  trim_spaces "72  " = "72"%string /\
  trim_spaces "   " = EmptyString /\
  trim_spaces "7 2 " = "7 2"%string /\
  trim_spaces " 72" = " 72"%string.
Proof. repeat split. Qed.

Example sscanf_d_examples :
  sscanf_d "72" = Some 72 /\ sscanf_d " 300.5" = Some 300 /\
  sscanf_d "-12" = Some (-12) /\ sscanf_d "0" = Some 0 /\
  sscanf_d "dpi" = None /\ sscanf_d "-" = None.
Proof. repeat split. Qed.

Example cm_to_ppi_examples :
  cm_to_ppi 100 = 254 /\ cm_to_ppi 1 = 2 /\ cm_to_ppi 28 = 71 /\
  cm_to_ppi 50 = 127 /\ cm_to_ppi 65535 = 166458.
Proof. repeat split. Qed.

Example scan_markers_examples :
  scan_markers [] 0 = 0 /\
  scan_markers [mkMarker (JPEG_APP0 + 14) 12 "Adobe_______"] 0 = 1 /\
  scan_markers [mkMarker (JPEG_APP0 + 14) 5 "Adobe"] 0 = 0 /\
  scan_markers [mkMarker (JPEG_APP0 + 1) 14 "Exif__________"] 0 = 0.
Proof. repeat split. Qed.

(** A whole decode of a one-pixel Adobe CMYK image, through a lookup table
    that adds one to every byte below 255. *)
Example adobe_cmyk_decode :
  let lut := map Z.of_nat (seq 1 255) ++ [255] in
  let run l :=
    _cupsImageReadJPEG (sample_image 200)
      (sample_cinfo [adobe_marker] 4 1 1 100 100 2 [10; 20; 30; 40]) no_exif
      CUPS_IMAGE_RGB_CMYK CUPS_IMAGE_WHITE 100 0 l sample_junk in
  run None
  = (0, mkImage CUPS_IMAGE_CMYK 1 1 254 254,
     [EvSetXppi 254; EvSetYppi 254; EvReadEXIF; EvStartDecompress;
      EvPutRow 0 0 1 [245; 235; 225; 215];
      EvFinishDecompress; EvDestroyDecompress; EvFclose]) /\
  put_rows (log_of (run (Some lut))) = [(0, 0, 1, [246; 236; 226; 216])].
Proof. split; vm_compute; reflexivity. Qed.

(** * Further properties of the reader *)

(** ** The Adobe marker scan *)

Lemma prefix_append (p s : string) :
  String.prefix p s = true <-> exists rest, s = (p ++ rest)%string.
Proof.
  revert s. induction p as [|c p IH]; intros s.
  - split; [intros _; exists s; reflexivity|].
    intros _. destruct s; reflexivity.
  - destruct s as [|d s]; simpl.
    + split; [discriminate | intros [rest Hr]; discriminate].
    + destruct (Ascii.ascii_dec c d) as [->|Hne].
      * rewrite IH. split; intros [rest Hr]; exists rest; congruence.
      * split; [discriminate | intros [rest Hr]; congruence].
Qed.

Lemma is_adobe_marker_spec (m : jpeg_marker) :
  is_adobe_marker m = true <->
  marker m = 0xEE /\ 12 <= data_length m /\
  exists rest, data m = ("Adobe" ++ rest)%string.
Proof.
  unfold is_adobe_marker.
  rewrite !andb_true_iff, Z.eqb_eq, Z.leb_le, prefix_append.
  change (JPEG_APP0 + 14) with 0xEE. tauto.
Qed.

Lemma scan_markers_from_one (l : list jpeg_marker) : scan_markers l 1 = 1.
Proof.
  induction l as [|m l IH]; [reflexivity|].
  simpl. destruct (is_adobe_marker m); exact IH.
Qed.

(** X1: The scan of the saved markers sets the flag to 1 exactly when some
    marker of the list is an APP14 marker of at least 12 bytes whose data
    begin with "Adobe", wherever it stands in the list, and leaves it 0
    otherwise. *)
Theorem scan_markers_adobe (l : list jpeg_marker) :
  (scan_markers l 0 = 1 <->
   Exists (fun m => marker m = 0xEE /\ 12 <= data_length m /\
                    exists rest, data m = ("Adobe" ++ rest)%string) l) /\
  (scan_markers l 0 = 0 \/ scan_markers l 0 = 1).
Proof.
  induction l as [|m l [IH1 IH2]].
  - split; [|left; reflexivity].
    split; [discriminate | intros Hex; inversion Hex].
  - cbn [scan_markers].
    destruct (is_adobe_marker m) eqn:Hm.
    + rewrite scan_markers_from_one. split; [|right; reflexivity].
      split; [|reflexivity]. intros _. apply Exists_cons_hd.
      apply is_adobe_marker_spec. exact Hm.
    + split; [|exact IH2]. rewrite IH1. split.
      * intros Hex. apply Exists_cons_tl. exact Hex.
      * intros Hex. inversion Hex as [? ? Hhd|? ? Htl]; subst.
        -- apply is_adobe_marker_spec in Hhd. congruence.
        -- exact Htl.
Qed.

(** ** [trim_spaces] on every string *)

Lemma split_trailing (s : string) :
  exists v k, s = (v ++ pad k)%string /\ ends_with_space v = false.
Proof.
  induction s as [|c s (v & k & Hs & Hv)].
  - exists EmptyString, 0%nat. split; reflexivity.
  - destruct v as [|d v].
    + destruct (is_space_char c) eqn:Hc.
      * exists EmptyString, (S k). split; [|reflexivity].
        apply Ascii.eqb_eq in Hc. subst c. simpl in *. rewrite Hs.
        reflexivity.
      * exists (String c EmptyString), k. split.
        -- simpl in *. rewrite Hs. reflexivity.
        -- simpl. exact Hc.
    + exists (String c (String d v)), k. split.
      * rewrite Hs. reflexivity.
      * exact Hv.
Qed.

(** X2: [trim_spaces] removes a run of spaces from the end of the string and
    nothing else: the input is the result followed by spaces only, and the
    result does not end in a space.  Leading and inner spaces stay. *)
Theorem trim_spaces_decompose (buf : string) :
  exists k,
    buf = (trim_spaces buf ++ pad k)%string /\
    ends_with_space (trim_spaces buf) = false.
Proof.
  destruct (split_trailing buf) as (v & k & Hs & Hv).
  exists k. rewrite Hs at 2 3. rewrite (trim_spaces_pad v k Hv).
  split; [exact Hs | exact Hv].
Qed.

(** X3: Trimming a trimmed string changes nothing. *)
Theorem trim_spaces_idempotent (buf : string) :
  trim_spaces (trim_spaces buf) = trim_spaces buf.
Proof.
  destruct (split_trailing buf) as (v & k & Hs & Hv).
  rewrite Hs, (trim_spaces_pad v k Hv).
  pose proof (trim_spaces_pad v 0 Hv) as H0.
  simpl in H0. replace (v ++ "")%string with v in H0; [exact H0|].
  clear. induction v as [|c v IH]; [reflexivity|].
  simpl. rewrite <- IH. reflexivity.
Qed.

(** ** [_cupsImageReadEXIF] *)

Lemma append_assoc_string (a b c : string) :
  ((a ++ b) ++ c)%string = (a ++ (b ++ c))%string.
Proof.
  induction a as [|x a IH]; [reflexivity|].
  simpl. rewrite IH. reflexivity.
Qed.

Lemma pad_add (k j : nat) : pad (k + j) = (pad k ++ pad j)%string.
Proof.
  induction k as [|k IH]; [reflexivity|].
  simpl. rewrite IH. reflexivity.
Qed.

Lemma ends_with_space_append (a u : string) :
  u <> EmptyString -> ends_with_space (a ++ u) = ends_with_space u.
Proof.
  intros Hu. induction a as [|c a IH]; [reflexivity|].
  cbn [append]. destruct (a ++ u)%string as [|d w] eqn:Haw.
  - destruct a; simpl in Haw; [contradiction | discriminate].
  - exact IH.
Qed.

Lemma skip_space_pad (k : nat) (s : string) :
  skip_space (pad k ++ s) = skip_space s.
Proof. induction k as [|k IH]; [reflexivity | exact IH]. Qed.

Lemma sscanf_d_pad (k : nat) (s : string) :
  sscanf_d (pad k ++ s) = sscanf_d s.
Proof. unfold sscanf_d. rewrite skip_space_pad. reflexivity. Qed.

Lemma exif_axis_nonblank (u : string) (j : nat) (res0 : Z) :
  u <> EmptyString -> ends_with_space u = false ->
  exif_axis (Some (u ++ pad j)%string) res0
  = Some (match sscanf_d u with Some n => n | None => res0 end).
Proof.
  intros Hu He. unfold exif_axis. rewrite (trim_spaces_pad u j He).
  destruct u; [contradiction | reflexivity].
Qed.

Lemma exif_axis_leading (k : nat) (v : string) (res0 : Z) :
  exif_axis (Some (pad k ++ v)%string) res0 = exif_axis (Some v) res0.
Proof.
  destruct (split_trailing v) as (u & j & Hv & Hu). subst v.
  destruct u as [|c u].
  - cbn [append]. rewrite <- pad_add, !exif_axis_blank. reflexivity.
  - rewrite <- append_assoc_string.
    rewrite exif_axis_nonblank.
    + rewrite exif_axis_nonblank by (discriminate || exact Hu).
      rewrite sscanf_d_pad. reflexivity.
    + destruct (pad k); discriminate.
    + rewrite ends_with_space_append by discriminate. exact Hu.
Qed.

Lemma exif_axis_unparsed (v : string) (res0 : Z) :
  trim_spaces v <> EmptyString -> sscanf_d (trim_spaces v) = None ->
  exif_axis (Some v) res0 = Some res0.
Proof.
  intros Hne Hs. unfold exif_axis.
  destruct (trim_spaces v) as [|c w]; [contradiction|].
  rewrite Hs. reflexivity.
Qed.

(** X4: The EXIF scan touches nothing but the two resolution fields, and
    touches nothing at all unless it returns 1: with no stream it returns
    -1, with no EXIF data 2, and in both cases the image is the one it
    was given and nothing is stored. *)
Theorem read_exif_frame (img : cups_image_t) (fp : option FILE)
    (x0 y0 : Z) :
  let r := _cupsImageReadEXIF img fp x0 y0 in
  (colorspace (image_of r) = colorspace img /\
   xsize (image_of r) = xsize img /\ ysize (image_of r) = ysize img) /\
  (status_of r = -1 \/ status_of r = 2 \/ status_of r = 1) /\
  (status_of r = -1 <-> fp = None) /\
  (status_of r = 2 <->
   exists f, fp = Some f /\ exif_data_new_from_data f = None) /\
  (status_of r <> 1 -> image_of r = img /\ log_of r = []).
Proof.
  intros r. split; [exact (read_exif_geometry img fp x0 y0)|].
  unfold r, _cupsImageReadEXIF, status_of, image_of, log_of.
  destruct fp as [f|].
  - destruct (exif_data_new_from_data f) as [ed|] eqn:Hed.
    + destruct (exif_axis (entryX ed) x0), (exif_axis (entryY ed) y0);
        cbn [fst snd];
        (split; [auto|]);
        (split; [split; [discriminate | discriminate]|]);
        (split; [split; [discriminate
                        | intros (f' & Hf & Hn); congruence]|]);
        intros Hc; contradiction Hc; reflexivity.
    + cbn [fst snd]. split; [auto|].
      split; [split; discriminate|].
      split; [split; [intros _; exists f; auto | reflexivity]|]. auto.
  - cbn [fst snd]. split; [auto|].
    split; [split; reflexivity|].
    split; [split; [discriminate | intros (f' & Hf & _); discriminate]|].
    auto.
Qed.

(** X5: A tag that holds nothing but spaces is ignored: its axis keeps the
    value it had, as if the tag were absent. *)
Theorem exif_blank_tag_ignored
    (img : cups_image_t) (ed : ExifData) (x0 y0 : Z) (k : nat) :
  let img' :=
    image_of (_cupsImageReadEXIF img (Some (mkFile (Some ed))) x0 y0) in
  (entryX ed = Some (pad k) -> xppi img' = xppi img) /\
  (entryY ed = Some (pad k) -> yppi img' = yppi img).
Proof.
  intros img'. unfold img', image_of, _cupsImageReadEXIF.
  cbn [exif_data_new_from_data]. split; intros Ht; rewrite Ht.
  - rewrite exif_axis_blank.
    destruct (exif_axis (entryY ed) y0); reflexivity.
  - rewrite exif_axis_blank.
    destruct (exif_axis (entryX ed) x0); reflexivity.
Qed.

Lemma exif_blank_tag_ignored_witness :
  let ed := mkExif (Some "   "%string) (Some "96"%string) in
  let img' :=
    image_of (_cupsImageReadEXIF (sample_image 200)
                (Some (mkFile (Some ed))) (-7) (-9)) in
  entryX ed = Some (pad 3) /\ xppi img' = 200 /\ yppi img' = 96.
Proof.
  intros ed img'.
  assert (Hx : entryX ed = Some (pad 3)) by reflexivity.
  split; [exact Hx|]. split; [|reflexivity].
  exact (proj1 (exif_blank_tag_ignored (sample_image 200) ed (-7) (-9) 3)
           Hx).
Defined.

(** X6: A tag that is not blank but does not start with an integer (after
    white space and an optional sign) still stores into its axis: nothing
    was scanned into the local variable, and what the axis receives is the
    value that variable happened to hold. *)
Theorem exif_unparsed_tag_stores_local
    (img : cups_image_t) (ed : ExifData) (x0 y0 : Z) :
  let img' :=
    image_of (_cupsImageReadEXIF img (Some (mkFile (Some ed))) x0 y0) in
  (forall v, entryX ed = Some v -> trim_spaces v <> EmptyString ->
             sscanf_d (trim_spaces v) = None -> xppi img' = x0) /\
  (forall v, entryY ed = Some v -> trim_spaces v <> EmptyString ->
             sscanf_d (trim_spaces v) = None -> yppi img' = y0).
Proof.
  intros img'. unfold img', image_of, _cupsImageReadEXIF.
  cbn [exif_data_new_from_data].
  split; intros v Ht Hne Hs; rewrite Ht, (exif_axis_unparsed v _ Hne Hs).
  - destruct (exif_axis (entryY ed) y0); reflexivity.
  - destruct (exif_axis (entryX ed) x0); reflexivity.
Qed.

Lemma exif_unparsed_tag_stores_local_witness :
  let ed := mkExif (Some "n/a "%string) None in
  let img' :=
    image_of (_cupsImageReadEXIF (sample_image 200)
                (Some (mkFile (Some ed))) (-7) (-9)) in
  (entryX ed = Some "n/a "%string /\
   trim_spaces "n/a " <> EmptyString /\
   sscanf_d (trim_spaces "n/a ") = None) /\
  xppi img' = -7.
Proof.
  intros ed img'.
  assert (Hx : entryX ed = Some "n/a "%string) by reflexivity.
  assert (Hne : trim_spaces "n/a " <> EmptyString)
    by (vm_compute; discriminate).
  assert (Hs : sscanf_d (trim_spaces "n/a ") = None) by reflexivity.
  split; [repeat split; assumption|].
  exact (proj1 (exif_unparsed_tag_stores_local (sample_image 200) ed
                  (-7) (-9)) "n/a "%string Hx Hne Hs).
Defined.

(** X7: Spaces in front of a tag value do not matter: the scan of a file
    whose X-resolution (or Y-resolution) value is preceded by any number of
    spaces gives the same result as without them. *)
Theorem exif_leading_spaces_harmless
    (img : cups_image_t) (ex ey : option string) (v : string) (k : nat)
    (x0 y0 : Z) :
  let run x y :=
    _cupsImageReadEXIF img (Some (mkFile (Some (mkExif x y)))) x0 y0 in
  run (Some (pad k ++ v)%string) ey = run (Some v) ey /\
  run ex (Some (pad k ++ v)%string) = run ex (Some v).
Proof.
  intros run. unfold run, _cupsImageReadEXIF.
  cbn [exif_data_new_from_data entryX entryY].
  rewrite !exif_axis_leading. split; reflexivity.
Qed.

(** ** The header densities *)

(** X8: With the density unit 1 (dots per inch) and positive densities, a
    decode that reaches the rows and whose EXIF scan stores nothing ends
    with the header densities themselves as resolution. *)
Theorem inch_density_unchanged `{ImagePrivate}
    (img : cups_image_t) (cinfo : jpeg_decompress_struct) (fp : FILE)
    (primary secondary : cups_icspace_t) (saturation hue : Z)
    (lut : option row) (junk : indeterminate) :
  let r :=
    _cupsImageReadJPEG img cinfo fp primary secondary saturation hue lut junk
  in
  status_of r = 0 ->
  exif_stored fp junk = (None, None) ->
  0 < X_density cinfo -> 0 < Y_density cinfo -> density_unit cinfo = 1 ->
  ppi_of (image_of r) = (X_density cinfo, Y_density cinfo).
Proof.
  intros r Hst Hex HX HY Hu.
  pose proof (read_jpeg_ppi img cinfo fp primary secondary saturation hue
                lut junk Hst) as [Hx Hy].
  fold r in Hx, Hy. rewrite Hex in Hx, Hy. cbn [fst snd] in Hx, Hy.
  assert (Hv : density_valid cinfo = true).
  { unfold density_valid. rewrite Hu.
    rewrite !andb_true_iff, !Z.ltb_lt. lia. }
  pose proof (header_resolution_valid cinfo img Hv) as Hh.
  unfold ppi_of in Hh. rewrite <- Hx, <- Hy in Hh.
  unfold ppi_of. rewrite Hh.
  unfold density_ppi. rewrite Hu. cbn [Z.eqb Pos.eqb fst snd].
  destruct (Z.eqb_spec (X_density cinfo) 0); [lia|].
  destruct (Z.eqb_spec (Y_density cinfo) 0); [lia|].
  reflexivity.
Qed.

Lemma inch_density_unchanged_witness :
  let cinfo := sample_cinfo [] 3 2 2 300 150 1 [1; 2; 3; 4; 5; 6] in
  let r :=
    _cupsImageReadJPEG (sample_image 200) cinfo no_exif
      CUPS_IMAGE_RGB CUPS_IMAGE_WHITE 100 0 None sample_junk in
  (status_of r = 0 /\ exif_stored no_exif sample_junk = (None, None) /\
   0 < X_density cinfo /\ 0 < Y_density cinfo /\ density_unit cinfo = 1) /\
  ppi_of (image_of r) = (300, 150).
Proof.
  intros cinfo r.
  assert (Hs : status_of r = 0) by reflexivity.
  assert (He : exif_stored no_exif sample_junk = (None, None))
    by reflexivity.
  assert (HX : 0 < X_density cinfo) by (simpl; lia).
  assert (HY : 0 < Y_density cinfo) by (simpl; lia).
  assert (Hu : density_unit cinfo = 1) by reflexivity.
  split; [repeat split; assumption|].
  exact (inch_density_unchanged (sample_image 200) cinfo no_exif
           CUPS_IMAGE_RGB CUPS_IMAGE_WHITE 100 0 None sample_junk
           Hs He HX HY Hu).
Defined.

(** X9: The density unit is only ever compared with 0 and with 1: two headers
    with the same densities and any two units above 1 (2, dots per
    centimetre, or a value the format does not define) lead to the same
    stores. *)
Theorem density_units_above_one_agree
    (c1 c2 : jpeg_decompress_struct) (img : cups_image_t) :
  X_density c1 = X_density c2 -> Y_density c1 = Y_density c2 ->
  1 < density_unit c1 -> 1 < density_unit c2 ->
  header_resolution c1 img = header_resolution c2 img.
Proof.
  intros HX HY H1 H2.
  unfold header_resolution, density_valid, density_ppi.
  rewrite HX, HY.
  destruct (Z.ltb_spec 0 (density_unit c1)); [|lia].
  destruct (Z.ltb_spec 0 (density_unit c2)); [|lia].
  destruct (Z.eqb_spec (density_unit c1) 1); [lia|].
  destruct (Z.eqb_spec (density_unit c2) 1); [lia|].
  reflexivity.
Qed.

Lemma density_units_above_one_agree_witness :
  let c1 := sample_cinfo [] 3 2 2 100 40 2 [] in
  let c2 := sample_cinfo [] 3 2 2 100 40 255 [] in
  (X_density c1 = X_density c2 /\ Y_density c1 = Y_density c2 /\
   1 < density_unit c1 /\ 1 < density_unit c2) /\
  header_resolution c2 (sample_image 200)
  = (mkImage CUPS_IMAGE_WHITE 0 0 254 101, [EvSetXppi 254; EvSetYppi 101]).
Proof.
  intros c1 c2.
  assert (HX : X_density c1 = X_density c2) by reflexivity.
  assert (HY : Y_density c1 = Y_density c2) by reflexivity.
  assert (H1 : 1 < density_unit c1) by (simpl; lia).
  assert (H2 : 1 < density_unit c2) by (simpl; lia).
  split; [repeat split; assumption|].
  rewrite <- (density_units_above_one_agree c1 c2 (sample_image 200)
                HX HY H1 H2).
  reflexivity.
Defined.

(** X10: For densities in the range of the 16-bit header fields the guard
    against a zero resolution never fires: with positive densities and a
    positive unit the header step makes exactly two stores, both at least
    1, and never the two stores of 200. *)
Theorem zero_guard_never_fires
    (cinfo : jpeg_decompress_struct) (img : cups_image_t) :
  0 < X_density cinfo < 65536 -> 0 < Y_density cinfo < 65536 ->
  0 < density_unit cinfo ->
  let x := fst (density_ppi cinfo) in
  let y := snd (density_ppi cinfo) in
  1 <= x /\ 1 <= y /\
  header_resolution cinfo img
  = (set_yppi (set_xppi img x) y, [EvSetXppi x; EvSetYppi y]).
Proof.
  intros HX HY Hu x y.
  assert (Hx : 1 <= x).
  { unfold x, density_ppi. destruct (density_unit cinfo =? 1); cbn [fst].
    - lia.
    - rewrite cm_to_ppi_exact by lia.
      apply Z.div_le_lower_bound; lia. }
  assert (Hy : 1 <= y).
  { unfold y, density_ppi. destruct (density_unit cinfo =? 1); cbn [snd].
    - lia.
    - rewrite cm_to_ppi_exact by lia.
      apply Z.div_le_lower_bound; lia. }
  split; [exact Hx|]. split; [exact Hy|].
  unfold header_resolution, density_valid.
  destruct (Z.ltb_spec 0 (X_density cinfo)); [|lia].
  destruct (Z.ltb_spec 0 (Y_density cinfo)); [|lia].
  destruct (Z.ltb_spec 0 (density_unit cinfo)); [|lia].
  cbn [andb]. fold x y.
  replace (density_ppi cinfo) with (x, y)
    by (unfold x, y; destruct (density_ppi cinfo); reflexivity).
  cbn [set_xppi set_yppi xppi yppi].
  destruct (Z.eqb_spec x 0); [lia|]. destruct (Z.eqb_spec y 0); [lia|].
  reflexivity.
Qed.

Lemma zero_guard_never_fires_witness :
  let cinfo := sample_cinfo [] 3 2 2 1 65535 2 [] in
  (0 < X_density cinfo < 65536 /\ 0 < Y_density cinfo < 65536 /\
   0 < density_unit cinfo) /\
  header_resolution cinfo (sample_image 200)
  = (mkImage CUPS_IMAGE_WHITE 0 0 2 166458,
     [EvSetXppi 2; EvSetYppi 166458]).
Proof.
  intros cinfo.
  assert (HX : 0 < X_density cinfo < 65536) by (simpl; lia).
  assert (HY : 0 < Y_density cinfo < 65536) by (simpl; lia).
  assert (Hu : 0 < density_unit cinfo) by (simpl; lia).
  split; [repeat split; apply HX || apply HY || exact Hu|].
  exact (proj2 (proj2 (zero_guard_never_fires cinfo (sample_image 200)
                         HX HY Hu))).
Defined.

(** ** The image on failure *)

(** X12: A failed read is not without effect on the image: its colorspace has
    already been overwritten with the target of the plan.  The size and
    the resolution are those it had on entry, and the file was not scanned
    for EXIF data. *)
Theorem failure_overwrites_colorspace_only `{ImagePrivate}
    (img : cups_image_t) (cinfo : jpeg_decompress_struct) (fp : FILE)
    (primary secondary : cups_icspace_t) (saturation hue : Z)
    (lut : option row) (junk : indeterminate) :
  let r :=
    _cupsImageReadJPEG img cinfo fp primary secondary saturation hue lut junk
  in
  status_of r = 1 ->
  colorspace (image_of r)
  = snd (plan_colorspace (num_components cinfo) primary secondary) /\
  xsize (image_of r) = xsize img /\ ysize (image_of r) = ysize img /\
  ppi_of (image_of r) = ppi_of img /\
  log_of r = [EvDestroyDecompress; EvFclose].
Proof.
  intros r Hst. unfold r in *. rewrite read_jpeg_status in Hst.
  destruct (bad_dimensions cinfo) eqn:Hb; [|discriminate].
  rewrite (read_jpeg_bad _ _ _ _ _ _ _ _ _ Hb).
  repeat split.
Qed.

Lemma failure_overwrites_colorspace_only_witness :
  let r :=
    _cupsImageReadJPEG (mkImage CUPS_IMAGE_WHITE 11 12 128 129)
      (sample_cinfo [] 4 5 0 72 72 1 []) (exif_file (Some "300"%string) None)
      CUPS_IMAGE_RGB_CMYK CUPS_IMAGE_WHITE 100 0 None sample_junk in
  status_of r = 1 /\
  colorspace (image_of r) = CUPS_IMAGE_CMYK /\
  xsize (image_of r) = 11 /\ ppi_of (image_of r) = (128, 129).
Proof.
  intros r.
  assert (Hs : status_of r = 1) by reflexivity.
  split; [exact Hs|].
  destruct (failure_overwrites_colorspace_only
              (mkImage CUPS_IMAGE_WHITE 11 12 128 129)
              (sample_cinfo [] 4 5 0 72 72 1 [])
              (exif_file (Some "300"%string) None)
              CUPS_IMAGE_RGB_CMYK CUPS_IMAGE_WHITE 100 0 None sample_junk Hs)
    as (Hc & Hx & Hy & Hp & _).
  split; [exact Hc|]. split; [exact Hx | exact Hp].
Defined.

(** ** The plan and the conversions *)

(** X13: Among the colorspace pairs the plan can produce, one only has neither
    a direct path nor a conversion: a one-component image whose secondary
    colorspace is the RGB-or-CMYK choice.  For an image of any other
    component count the choice is resolved by the plan and never becomes
    the colorspace of the image. *)
Theorem plan_pair_unhandled_iff `{ImagePrivate}
    (nc : Z) (primary secondary : cups_icspace_t) :
  let op := fst (plan_colorspace nc primary secondary) in
  let target := snd (plan_colorspace nc primary secondary) in
  ((direct_path target (out_color_space op) = false /\
    dispatch (out_color_space op) target = None) <->
   (nc = 1 /\ secondary = CUPS_IMAGE_RGB_CMYK)) /\
  (nc <> 1 -> target <> CUPS_IMAGE_RGB_CMYK).
Proof.
  unfold plan_colorspace.
  destruct (Z.eqb_spec nc 1) as [H1|H1].
  - cbn [fst snd out_color_space]. split; [|contradiction].
    destruct secondary; cbn; split;
      try (intros [Hd Hn]; discriminate);
      try (intros [_ Hs]; discriminate); auto.
  - destruct (Z.eqb_spec nc 4) as [H4|H4]; cbn [fst snd out_color_space];
      (split; [|intros _; destruct primary; discriminate]);
      destruct primary; cbn; split;
        try (intros [Hd Hn]; discriminate);
        try (intros [Hc _]; contradiction).
Qed.

(** ** The inversion of Adobe CMYK rows *)

(** X14: On bytes the inversion undoes itself: inverting a row twice gives the
    row back.  It never changes the length of the buffer, whatever count it
    is given. *)
Theorem invert_loop_involutive (n : nat) (line : row) :
  Forall (fun b => 0 <= b <= 255) line ->
  invert_loop n (invert_loop n line) = line /\
  List.length (invert_loop n line) = List.length line.
Proof.
  intros Hb. revert n. induction Hb as [|b rest Hb _ IH]; intros n.
  - destruct n; split; reflexivity.
  - destruct n as [|n]; [split; reflexivity|].
    cbn [invert_loop List.length]. destruct (IH n) as [IH1 IH2].
    rewrite IH1, IH2. split; [|reflexivity]. f_equal.
    rewrite (Z.mod_small (255 - b)) by lia.
    rewrite Z.mod_small by lia. lia.
Qed.

Lemma invert_loop_involutive_witness :
  Forall (fun b => 0 <= b <= 255) [0; 10; 128; 255; 77] /\
  invert_loop 4 [0; 10; 128; 255; 77] = [255; 245; 127; 0; 77] /\
  invert_loop 4 (invert_loop 4 [0; 10; 128; 255; 77])
  = [0; 10; 128; 255; 77].
Proof.
  assert (Hb : Forall (fun b => 0 <= b <= 255) [0; 10; 128; 255; 77])
    by (repeat constructor; lia).
  split; [exact Hb|]. split; [reflexivity|].
  exact (proj1 (invert_loop_involutive 4 [0; 10; 128; 255; 77] Hb)).
Defined.

(** ** The rows of a whole decode *)

Lemma put_rows_map_put {A : Type} (y : A -> Z) (w : Z) (p : A -> row)
    (l : list A) :
  put_rows (map (fun a => EvPutRow 0 (y a) w (p a)) l)
  = map (fun a => (0, y a, w, p a)) l.
Proof.
  induction l as [|a l IH]; [reflexivity|].
  simpl. f_equal. exact IH.
Qed.

Section Rows.
Context `{ImagePrivate}.
Variables (cinfo : jpeg_decompress_struct) (img : cups_image_t)
          (op : out_params) (psjpeg saturation hue : Z)
          (lut : option row).

Local Abbreviation step :=
  (scanline_step cinfo img op psjpeg saturation hue lut).
Local Abbreviation loop :=
  (fun fuel => scanline_loop fuel cinfo img op psjpeg saturation hue lut).

(** On the direct path the loop writes each scanline, prepared and passed
    through the lookup table, and leaves the [out] buffer alone. *)
Lemma scanline_loop_direct (fuel : nat) :
  direct_path (colorspace img) (out_color_space op) = true ->
  forall st,
  output_scanline st <= output_height cinfo ->
  output_height cinfo - output_scanline st <= Z.of_nat fuel ->
  loop fuel st
  = mkLoop (output_height cinfo) (out_buf st)
      (loop_log st
       ++ map (fun y =>
                 EvPutRow 0 y (xsize img)
                   (apply_lut img lut
                      (prepare_row img op psjpeg saturation hue
                         (scanlines cinfo y))))
            (zseq (output_scanline st)
               (Z.to_nat (output_height cinfo - output_scanline st)))).
Proof.
  intros Hd. induction fuel as [|fuel IH]; intros st Hle Hfuel.
  - cbn [scanline_loop].
    replace (output_height cinfo - output_scanline st) with 0 by lia.
    cbn [Z.to_nat zseq map]. rewrite app_nil_r.
    destruct st as [sl out log]. cbn in *. f_equal. lia.
  - cbn [scanline_loop].
    destruct (Z.ltb_spec (output_scanline st) (output_height cinfo))
      as [Hlt|Hge].
    + rewrite IH.
      * unfold scanline_step, write_row. rewrite Hd.
        cbn [output_scanline out_buf loop_log].
        replace (Z.to_nat (output_height cinfo - output_scanline st))
          with (S (Z.to_nat (output_height cinfo
                             - (output_scanline st + 1)))) by lia.
        rewrite zseq_succ. cbn [map]. rewrite <- app_assoc.
        rewrite Z.add_simpl_r. reflexivity.
      * destruct (scanline_step_inv cinfo img op psjpeg saturation hue lut
                    st) as [Hsl _]. lia.
      * destruct (scanline_step_inv cinfo img op psjpeg saturation hue lut
                    st) as [Hsl _]. lia.
    + replace (output_height cinfo - output_scanline st) with 0 by lia.
      cbn [Z.to_nat zseq map]. rewrite app_nil_r.
      destruct st as [sl out log]. cbn in *. f_equal. lia.
Qed.

(** With neither a direct path nor a conversion the loop writes, row after
    row, the [out] buffer it started with, passed through the lookup table
    once more for each row. *)
Lemma scanline_loop_unhandled (fuel : nat) :
  direct_path (colorspace img) (out_color_space op) = false ->
  dispatch (out_color_space op) (colorspace img) = None ->
  forall st,
  output_scanline st <= output_height cinfo ->
  output_height cinfo - output_scanline st <= Z.of_nat fuel ->
  loop fuel st
  = mkLoop (output_height cinfo)
      (Nat.iter (Z.to_nat (output_height cinfo - output_scanline st))
         (apply_lut img lut) (out_buf st))
      (loop_log st
       ++ map (fun i =>
                 EvPutRow 0 (output_scanline st + Z.of_nat i) (xsize img)
                   (Nat.iter (S i) (apply_lut img lut) (out_buf st)))
            (seq 0 (Z.to_nat (output_height cinfo - output_scanline st)))).
Proof.
  intros Hd Hn. induction fuel as [|fuel IH]; intros st Hle Hfuel.
  - cbn [scanline_loop].
    replace (output_height cinfo - output_scanline st) with 0 by lia.
    cbn [Z.to_nat seq map Nat.iter nat_rect]. rewrite app_nil_r.
    destruct st as [sl out log]. cbn in *. f_equal. lia.
  - cbn [scanline_loop].
    destruct (Z.ltb_spec (output_scanline st) (output_height cinfo))
      as [Hlt|Hge].
    + rewrite IH.
      * unfold scanline_step, write_row. rewrite Hd, Hn.
        cbn [output_scanline out_buf loop_log].
        replace (Z.to_nat (output_height cinfo - output_scanline st))
          with (S (Z.to_nat (output_height cinfo
                             - (output_scanline st + 1)))) by lia.
        rewrite Nat.iter_succ_r.
        cbn [seq map]. rewrite <- seq_shift, map_map, <- app_assoc.
        cbn [app]. rewrite Z.add_simpl_r.
        f_equal. f_equal. f_equal; [f_equal; lia|].
        apply map_ext. intros i. rewrite <- !Nat.iter_succ_r.
        f_equal. lia.
      * destruct (scanline_step_inv cinfo img op psjpeg saturation hue lut
                    st) as [Hsl _]. lia.
      * destruct (scanline_step_inv cinfo img op psjpeg saturation hue lut
                    st) as [Hsl _]. lia.
    + replace (output_height cinfo - output_scanline st) with 0 by lia.
      cbn [Z.to_nat seq map Nat.iter nat_rect]. rewrite app_nil_r.
      destruct st as [sl out log]. cbn in *. f_equal. lia.
Qed.

End Rows.

Section DecodeRows.
Context `{ImagePrivate}.
Variables (img : cups_image_t) (cinfo : jpeg_decompress_struct)
          (fp : FILE) (primary secondary : cups_icspace_t)
          (saturation hue : Z) (lut : option row) (junk : indeterminate).

Local Abbreviation committed :=
  (commit_image img cinfo fp primary secondary junk).
Local Abbreviation result :=
  (_cupsImageReadJPEG img cinfo fp primary secondary saturation hue lut
     junk).
Local Abbreviation plan :=
  (plan_colorspace (num_components cinfo) primary secondary).

Lemma read_jpeg_unfold :
  bad_dimensions cinfo = false ->
  result
  = (0, fst committed,
     loop_log
       (scanline_loop (Z.to_nat (output_height cinfo)) cinfo (fst committed)
          (fst plan) (scan_markers (marker_list cinfo) 0) saturation hue lut
          (mkLoop 0 (out0 junk) (snd committed ++ [EvStartDecompress])))
     ++ [EvFinishDecompress; EvDestroyDecompress; EvFclose]).
Proof.
  intros Hb. unfold _cupsImageReadJPEG. rewrite Hb.
  destruct committed as [img4 log4]. reflexivity.
Qed.

Lemma commit_image_no_rows : put_rows (snd committed) = [].
Proof.
  destruct (commit_image_log img cinfo fp primary secondary junk)
    as (pre & post & Hlog & Hpre & Hpost).
  rewrite Hlog, put_rows_app.
  rewrite (put_rows_cons_other EvReadEXIF) by reflexivity.
  destruct (set_ppi_events pre Hpre) as (-> & _).
  destruct (set_ppi_events post Hpost) as (-> & _). reflexivity.
Qed.

Lemma height_positive :
  bad_dimensions cinfo = false -> 0 < output_height cinfo.
Proof.
  unfold bad_dimensions. intros Hb.
  apply orb_false_elim in Hb as [Hb _].
  apply orb_false_elim in Hb as [_ Hh]. apply Z.leb_gt in Hh. exact Hh.
Qed.

(** The sink calls of a decode on the direct path. *)
Lemma read_jpeg_direct_rows :
  bad_dimensions cinfo = false ->
  direct_path (snd plan) (out_color_space (fst plan)) = true ->
  put_rows (log_of result)
  = map (fun i =>
           (0, Z.of_nat i, output_width cinfo,
            apply_lut (fst committed) lut
              (prepare_row (fst committed) (fst plan)
                 (scan_markers (marker_list cinfo) 0) saturation hue
                 (scanlines cinfo (Z.of_nat i)))))
      (seq 0 (Z.to_nat (output_height cinfo))).
Proof.
  intros Hb Hd. rewrite (read_jpeg_unfold Hb). unfold log_of. cbn [snd].
  pose proof (height_positive Hb) as Hh.
  destruct (commit_image_geometry img cinfo fp primary secondary junk)
    as (Hc & Hw & _).
  rewrite scanline_loop_direct;
    [|rewrite Hc; exact Hd | cbn; lia | cbn; lia].
  cbn [loop_log output_scanline]. rewrite Z.sub_0_r.
  rewrite !put_rows_app, commit_image_no_rows.
  rewrite (put_rows_map_put (fun y => y)).
  change (put_rows [EvStartDecompress]) with (@nil (Z * Z * Z * row)).
  change (put_rows [EvFinishDecompress; EvDestroyDecompress; EvFclose])
    with (@nil (Z * Z * Z * row)).
  cbn [app]. rewrite app_nil_r, Hw.
  pose proof (zseq_seq (Z.to_nat (output_height cinfo)) 0) as Hz.
  cbn [Z.of_nat] in Hz. rewrite Hz, map_map. reflexivity.
Qed.

(** The sink calls of a decode with neither direct path nor conversion. *)
Lemma read_jpeg_unhandled_rows :
  bad_dimensions cinfo = false ->
  direct_path (snd plan) (out_color_space (fst plan)) = false ->
  dispatch (out_color_space (fst plan)) (snd plan) = None ->
  put_rows (log_of result)
  = map (fun i =>
           (0, Z.of_nat i, output_width cinfo,
            Nat.iter (S i) (apply_lut (fst committed) lut) (out0 junk)))
      (seq 0 (Z.to_nat (output_height cinfo))).
Proof.
  intros Hb Hd Hn. rewrite (read_jpeg_unfold Hb). unfold log_of. cbn [snd].
  pose proof (height_positive Hb) as Hh.
  destruct (commit_image_geometry img cinfo fp primary secondary junk)
    as (Hc & Hw & _).
  rewrite scanline_loop_unhandled;
    [|rewrite Hc; exact Hd | rewrite Hc; exact Hn | cbn; lia | cbn; lia].
  cbn [loop_log output_scanline out_buf]. rewrite Z.sub_0_r.
  rewrite !put_rows_app, commit_image_no_rows.
  rewrite (put_rows_map_put (fun i => 0 + Z.of_nat i)).
  change (put_rows [EvStartDecompress]) with (@nil (Z * Z * Z * row)).
  change (put_rows [EvFinishDecompress; EvDestroyDecompress; EvFclose])
    with (@nil (Z * Z * Z * row)).
  cbn [app]. rewrite app_nil_r, Hw. reflexivity.
Qed.

End DecodeRows.

Lemma prepare_row_plain `{ImagePrivate} (img : cups_image_t)
    (op : out_params) (psjpeg saturation hue : Z) (in_ : row) :
  invert_applies psjpeg (output_components op) = false ->
  output_components op <> 3 ->
  prepare_row img op psjpeg saturation hue in_ = in_.
Proof.
  intros Hi H3. unfold prepare_row, adjust_applies. rewrite Hi.
  destruct (Z.eqb_spec (output_components op) 3); [contradiction|].
  rewrite andb_false_r. reflexivity.
Qed.

Lemma read_jpeg_image `{ImagePrivate}
    (img : cups_image_t) (cinfo : jpeg_decompress_struct) (fp : FILE)
    (primary secondary : cups_icspace_t) (saturation hue : Z)
    (lut : option row) (junk : indeterminate) :
  bad_dimensions cinfo = false ->
  image_of (_cupsImageReadJPEG img cinfo fp primary secondary saturation hue
              lut junk)
  = fst (commit_image img cinfo fp primary secondary junk).
Proof.
  intros Hb.
  rewrite (read_jpeg_unfold img cinfo fp primary secondary saturation hue
             lut junk Hb).
  reflexivity.
Qed.

(** X15: A one-component image read into the white colorspace, and a
    four-component image without Adobe marker read into CMYK, go to the
    sink as decoded: row i of the sink is scanline i, changed by nothing
    but the optional lookup table.  Saturation, hue and the contents of the
    [out] buffer have no part in it. *)
Theorem direct_rows_as_decoded `{ImagePrivate}
    (img : cups_image_t) (cinfo : jpeg_decompress_struct) (fp : FILE)
    (primary secondary : cups_icspace_t) (saturation hue : Z)
    (lut : option row) (junk : indeterminate) :
  let r :=
    _cupsImageReadJPEG img cinfo fp primary secondary saturation hue lut junk
  in
  status_of r = 0 ->
  (num_components cinfo = 1 /\ secondary = CUPS_IMAGE_WHITE) \/
  (num_components cinfo = 4 /\
   (primary = CUPS_IMAGE_CMYK \/ primary = CUPS_IMAGE_RGB_CMYK) /\
   scan_markers (marker_list cinfo) 0 = 0) ->
  put_rows (log_of r)
  = map (fun i =>
           (0, Z.of_nat i, output_width cinfo,
            apply_lut (image_of r) lut (scanlines cinfo (Z.of_nat i))))
      (seq 0 (Z.to_nat (output_height cinfo))).
Proof.
  intros r Hst Hcase. apply status_zero_good in Hst.
  unfold r.
  rewrite (read_jpeg_image img cinfo fp primary secondary saturation hue
             lut junk Hst).
  rewrite read_jpeg_direct_rows; [|exact Hst|].
  - apply map_ext. intros i. rewrite prepare_row_plain; [reflexivity| |].
    + destruct Hcase as [[Hn _]|(Hn & _ & Hps)]; rewrite Hn; cbn.
      * unfold invert_applies. cbn. apply andb_false_r.
      * unfold invert_applies. rewrite Hps. reflexivity.
    + destruct Hcase as [[Hn _]|(Hn & _ & _)]; rewrite Hn; cbn;
        discriminate.
  - destruct Hcase as [[Hn Hs]|(Hn & Hp & _)]; rewrite Hn; cbn.
    + rewrite Hs. reflexivity.
    + destruct Hp as [-> | ->]; reflexivity.
Qed.

Lemma direct_rows_as_decoded_witness :
  let cinfo := sample_cinfo [] 1 3 2 0 0 0 [10; 20; 30] in
  let r :=
    _cupsImageReadJPEG (sample_image 200) cinfo no_exif
      CUPS_IMAGE_RGB CUPS_IMAGE_WHITE 50 30 None sample_junk in
  (status_of r = 0 /\ num_components cinfo = 1) /\
  put_rows (log_of r) = [(0, 0, 3, [10; 20; 30]); (0, 1, 3, [10; 20; 30])].
Proof.
  intros cinfo r.
  assert (Hs : status_of r = 0) by reflexivity.
  assert (Hn : num_components cinfo = 1) by reflexivity.
  split; [split; assumption|].
  exact (direct_rows_as_decoded (sample_image 200) cinfo no_exif
           CUPS_IMAGE_RGB CUPS_IMAGE_WHITE 50 30 None sample_junk Hs
           (or_introl (conj Hn eq_refl))).
Defined.

(** X16: A four-component image with an Adobe marker read into CMYK goes to
    the sink inverted: when every scanline holds 4 bytes per pixel of
    width, row i of the sink is scanline i with every byte b replaced by
    255 - b, then passed through the optional lookup table. *)
Theorem adobe_cmyk_decode_inverted `{ImagePrivate}
    (img : cups_image_t) (cinfo : jpeg_decompress_struct) (fp : FILE)
    (primary secondary : cups_icspace_t) (saturation hue : Z)
    (lut : option row) (junk : indeterminate) :
  let r :=
    _cupsImageReadJPEG img cinfo fp primary secondary saturation hue lut junk
  in
  status_of r = 0 ->
  num_components cinfo = 4 ->
  primary = CUPS_IMAGE_CMYK \/ primary = CUPS_IMAGE_RGB_CMYK ->
  scan_markers (marker_list cinfo) 0 <> 0 ->
  (forall y, 0 <= y < output_height cinfo ->
     Z.of_nat (List.length (scanlines cinfo y)) = output_width cinfo * 4 /\
     Forall (fun b => 0 <= b <= 255) (scanlines cinfo y)) ->
  put_rows (log_of r)
  = map (fun i =>
           (0, Z.of_nat i, output_width cinfo,
            apply_lut (image_of r) lut
              (map (fun b => 255 - b) (scanlines cinfo (Z.of_nat i)))))
      (seq 0 (Z.to_nat (output_height cinfo))).
Proof.
  intros r Hst Hn Hp Hps Hlines. apply status_zero_good in Hst.
  unfold r.
  rewrite (read_jpeg_image img cinfo fp primary secondary saturation hue
             lut junk Hst).
  destruct (commit_image_geometry img cinfo fp primary secondary junk)
    as (_ & Hw & _).
  rewrite read_jpeg_direct_rows; [|exact Hst|].
  - apply map_ext_in. intros i Hi. apply in_seq in Hi.
    destruct (Hlines (Z.of_nat i)) as [Hlen Hb]; [lia|].
    do 2 f_equal.
    unfold prepare_row, invert_applies, adjust_applies.
    rewrite Hn. cbn [plan_colorspace Z.eqb Pos.eqb fst output_components].
    destruct (Z.eqb_spec (scan_markers (marker_list cinfo) 0) 0);
      [contradiction|].
    cbn [negb andb]. rewrite andb_false_r, Hw.
    replace (Z.to_nat (output_width cinfo * 4))
      with (List.length (scanlines cinfo (Z.of_nat i))) by lia.
    apply invert_loop_all. exact Hb.
  - rewrite Hn. cbn. destruct Hp as [-> | ->]; reflexivity.
Qed.

Lemma adobe_cmyk_decode_inverted_witness :
  let cinfo := sample_cinfo [adobe_marker] 4 1 2 0 0 0 [10; 20; 30; 40] in
  let r :=
    _cupsImageReadJPEG (sample_image 200) cinfo no_exif
      CUPS_IMAGE_CMYK CUPS_IMAGE_WHITE 100 0 None sample_junk in
  (status_of r = 0 /\ num_components cinfo = 4 /\
   scan_markers (marker_list cinfo) 0 <> 0) /\
  put_rows (log_of r)
  = [(0, 0, 1, [245; 235; 225; 215]); (0, 1, 1, [245; 235; 225; 215])].
Proof.
  intros cinfo r.
  assert (Hs : status_of r = 0) by reflexivity.
  assert (Hn : num_components cinfo = 4) by reflexivity.
  assert (Hps : scan_markers (marker_list cinfo) 0 <> 0)
    by (vm_compute; discriminate).
  assert (Hl : forall y, 0 <= y < output_height cinfo ->
            Z.of_nat (List.length (scanlines cinfo y))
            = output_width cinfo * 4 /\
            Forall (fun b => 0 <= b <= 255) (scanlines cinfo y)).
  { intros y _. split; [reflexivity|]. simpl. repeat constructor; lia. }
  split; [repeat split; assumption|].
  exact (adobe_cmyk_decode_inverted (sample_image 200) cinfo no_exif
           CUPS_IMAGE_CMYK CUPS_IMAGE_WHITE 100 0 None sample_junk
           Hs Hn (or_introl eq_refl) Hps Hl).
Defined.

(** X17: A one-component image read with the RGB-or-CMYK choice as secondary
    colorspace sends none of its data to the sink: row i of the sink is the
    [out] buffer as it was allocated, passed through the lookup table i + 1
    times; without a lookup table every row is that buffer. *)
Theorem unhandled_decode_rows `{ImagePrivate}
    (img : cups_image_t) (cinfo : jpeg_decompress_struct) (fp : FILE)
    (primary secondary : cups_icspace_t) (saturation hue : Z)
    (lut : option row) (junk : indeterminate) :
  let r :=
    _cupsImageReadJPEG img cinfo fp primary secondary saturation hue lut junk
  in
  status_of r = 0 ->
  num_components cinfo = 1 -> secondary = CUPS_IMAGE_RGB_CMYK ->
  put_rows (log_of r)
  = map (fun i =>
           (0, Z.of_nat i, output_width cinfo,
            Nat.iter (S i) (apply_lut (image_of r) lut) (out0 junk)))
      (seq 0 (Z.to_nat (output_height cinfo))).
Proof.
  intros r Hst Hn Hs. apply status_zero_good in Hst.
  unfold r.
  rewrite (read_jpeg_image img cinfo fp primary secondary saturation hue
             lut junk Hst).
  apply read_jpeg_unhandled_rows; [exact Hst| |];
    rewrite Hn, Hs; reflexivity.
Qed.

Lemma unhandled_decode_rows_witness :
  let cinfo := sample_cinfo [] 1 1 3 0 0 0 [9] in
  let lut := map Z.of_nat (seq 1 255) ++ [255] in
  let r :=
    _cupsImageReadJPEG (sample_image 200) cinfo no_exif
      CUPS_IMAGE_RGB CUPS_IMAGE_RGB_CMYK 100 0 (Some lut) sample_junk in
  (status_of r = 0 /\ num_components cinfo = 1) /\
  put_rows (log_of r)
  = [(0, 0, 1, [8; 8; 8; 8]); (0, 1, 1, [9; 9; 9; 9]);
     (0, 2, 1, [10; 10; 10; 10])].
Proof.
  intros cinfo lut r.
  assert (Hs : status_of r = 0) by reflexivity.
  assert (Hn : num_components cinfo = 1) by reflexivity.
  split; [split; assumption|]. unfold r.
  rewrite (unhandled_decode_rows (sample_image 200) cinfo no_exif
             CUPS_IMAGE_RGB CUPS_IMAGE_RGB_CMYK 100 0 (Some lut)
             sample_junk Hs Hn eq_refl).
  vm_compute. reflexivity.
Defined.

(** ** Saturation and hue *)

Lemma prepare_row_ignores_adjust `{ImagePrivate} (img : cups_image_t)
    (op : out_params) (psjpeg s h s' h' : Z) (in_ : row) :
  output_components op <> 3 ->
  prepare_row img op psjpeg s h in_ = prepare_row img op psjpeg s' h' in_.
Proof.
  intros H3. unfold prepare_row, adjust_applies.
  destruct (Z.eqb_spec (output_components op) 3); [contradiction|].
  rewrite !andb_false_r. reflexivity.
Qed.

Lemma scanline_loop_ignores_adjust `{ImagePrivate}
    (cinfo : jpeg_decompress_struct) (img : cups_image_t)
    (op : out_params) (psjpeg s h s' h' : Z) (lut : option row)
    (fuel : nat) :
  output_components op <> 3 ->
  forall st,
  scanline_loop fuel cinfo img op psjpeg s h lut st
  = scanline_loop fuel cinfo img op psjpeg s' h' lut st.
Proof.
  intros H3. induction fuel as [|fuel IH]; intros st; [reflexivity|].
  cbn [scanline_loop].
  destruct (output_scanline st <? output_height cinfo); [|reflexivity].
  rewrite IH. f_equal. unfold scanline_step.
  rewrite (prepare_row_ignores_adjust img op psjpeg s h s' h' _ H3).
  reflexivity.
Qed.

(** X18: Saturation and hue act on three-component images only: for an image
    of one or of four components the reader gives the same status, image
    and log whatever the two values are. *)
Theorem adjustment_ignored_unless_rgb `{ImagePrivate}
    (img : cups_image_t) (cinfo : jpeg_decompress_struct) (fp : FILE)
    (primary secondary : cups_icspace_t) (s h s' h' : Z)
    (lut : option row) (junk : indeterminate) :
  num_components cinfo = 1 \/ num_components cinfo = 4 ->
  _cupsImageReadJPEG img cinfo fp primary secondary s h lut junk
  = _cupsImageReadJPEG img cinfo fp primary secondary s' h' lut junk.
Proof.
  intros Hn. unfold _cupsImageReadJPEG.
  destruct (bad_dimensions cinfo); [reflexivity|].
  destruct (commit_image img cinfo fp primary secondary junk)
    as [img4 log4].
  rewrite (scanline_loop_ignores_adjust cinfo img4 _ _ s h s' h');
    [reflexivity|].
  destruct Hn as [Hn|Hn]; rewrite Hn; cbn; discriminate.
Qed.

Lemma adjustment_ignored_unless_rgb_witness :
  let cinfo := sample_cinfo [] 1 2 2 0 0 0 [10; 20] in
  let run s h :=
    _cupsImageReadJPEG (sample_image 200) cinfo no_exif
      CUPS_IMAGE_RGB CUPS_IMAGE_BLACK s h None sample_junk in
  num_components cinfo = 1 /\ run 50 180 = run 100 0.
Proof.
  intros cinfo run.
  assert (Hn : num_components cinfo = 1) by reflexivity.
  split; [exact Hn|].
  exact (adjustment_ignored_unless_rgb (sample_image 200) cinfo no_exif
           CUPS_IMAGE_RGB CUPS_IMAGE_BLACK 50 180 100 0 None sample_junk
           (or_introl Hn)).
Defined.
